(** * slamon: timeliness monitoring of thredds products

    A shallow embedding of [slamon/modelrun.py] (the schedule model),
    of [extract_most_recent_bulletin], [resolve] and the per-model body of
    [main] in [slamon.py], and of the [StatusPage] client of
    [slamon/statuspage.py], together with the properties of the
    specification that are about them. *)

From Stdlib Require Import ZArith List String DecimalString Bool Lia.
From Stdlib Require Import Sorting.Sorted Sorting.Permutation.
Import ListNotations.
Local Open Scope string_scope.
Local Open Scope list_scope.
Local Open Scope Z_scope.

Set Implicit Arguments.

(* ================================================================= *)
(** ** Python exceptions *)

Inductive exn : Type :=
| AssertionError
| AttributeError
| IndexError
| TypeError
| KeyError
| ValueError
| HTTPError.

Inductive result (A : Type) : Type :=
| Ok (a : A)
| Raise (e : exn).
Arguments Ok {A} a.
Arguments Raise {A} e.

Definition rbind {A B} (r : result A) (k : A -> result B) : result B :=
  match r with
  | Ok a => k a
  | Raise e => Raise e
  end.

Declare Scope result_scope.
Delimit Scope result_scope with res.
Notation "x <- r ;; k" := (rbind r (fun x => k))
  (at level 61, r at next level, right associativity) : result_scope.

(* ================================================================= *)
(** ** Time

    [datetime.timedelta] is a signed number of microseconds.  A
    timezone-aware [datetime.datetime] denotes an absolute instant and
    carries the UTC offset of its [tzinfo]; its calendar fields
    ([year], [month], [day]) are those of the local time
    [instant + utcoffset].  Aware datetimes compare by instant.
    Python's bounds on the year (1..9999) are not modelled. *)

Module Time.

Definition timedelta := Z.

Definition usec_per_second : Z := 1000000.
Definition usec_per_minute : Z := 60 * usec_per_second.
Definition usec_per_hour : Z := 60 * usec_per_minute.
Definition usec_per_day : Z := 24 * usec_per_hour.

(** [datetime.timedelta(days=d, hours=h, minutes=m)] *)
Definition mk_timedelta (days hours minutes : Z) : timedelta :=
  days * usec_per_day + hours * usec_per_hour + minutes * usec_per_minute.

Record datetime : Type := mk_datetime {
  instant : Z;      (* microseconds since 1970-01-01T00:00:00Z *)
  utcoffset : Z     (* microseconds east of UTC *)
}.

(** [d.astimezone(datetime.timezone.utc)] *)
Definition astimezone_utc (d : datetime) : datetime :=
  {| instant := instant d; utcoffset := 0 |}.

(** [d - delta] and [d + delta]: the tzinfo is kept *)
Definition sub (d : datetime) (delta : timedelta) : datetime :=
  {| instant := instant d - delta; utcoffset := utcoffset d |}.
Definition add (d : datetime) (delta : timedelta) : datetime :=
  {| instant := instant d + delta; utcoffset := utcoffset d |}.

Definition geb (a b : datetime) : bool := instant b <=? instant a.
Definition leb (a b : datetime) : bool := instant a <=? instant b.
Definition ltb (a b : datetime) : bool := instant a <? instant b.
Definition gtb (a b : datetime) : bool := instant b <? instant a.

(** The calendar date [(d.year, d.month, d.day)], as the number of days
    between 1970-01-01 and that date. *)
Definition date_of (d : datetime) : Z :=
  (instant d + utcoffset d) / usec_per_day.

(** [datetime.datetime(year, month, day, hour=hour, tzinfo=utc)], the
    date given by its day number; [ValueError] unless [hour] is in
    [0..23]. *)
Definition utc_datetime (date hour : Z) : result datetime :=
  if (0 <=? hour) && (hour <? 24)
  then Ok {| instant := date * usec_per_day + hour * usec_per_hour;
             utcoffset := 0 |}
  else Raise ValueError.

(** Day number of a date of the proleptic Gregorian calendar. *)
Definition days_from_civil (y m d : Z) : Z :=
  let y' := if m <=? 2 then y - 1 else y in
  let era := y' / 400 in
  let yoe := y' - era * 400 in
  let mp := (m + 9) mod 12 in
  let doy := (153 * mp + 2) / 5 + d - 1 in
  let doe := yoe * 365 + yoe / 4 - yoe / 100 + doy in
  era * 146097 + doe - 719468.

(** The aware datetime [y-m-dTh:mi:00] at UTC offset [off] minutes. *)
Definition at_offset (y m d h mi off : Z) : datetime :=
  {| instant := days_from_civil y m d * usec_per_day
                + h * usec_per_hour + mi * usec_per_minute
                - off * usec_per_minute;
     utcoffset := off * usec_per_minute |}.

Definition utc (y m d h mi : Z) : datetime := at_offset y m d h mi 0.

End Time.
Import Time.

(* ================================================================= *)
(** ** slamon/modelrun.py *)

(** A class of the [ModelRun] hierarchy: its name and the class
    constants as they resolve through inheritance. *)
Record ModelClass : Type := mk_class {
  class_name : string;
  NAME : string;
  EXPECTED : timedelta;
  WARNING_AFTER : timedelta;
  ERROR_AFTER : timedelta;
  PATTERN : string;
  URL : string;
  STATUSPAGE_ID : option string;
  INIT_HOURS : list Z
}.

(** An instance: [self.bulletin] is [False] ([None] here) until a
    bulletin is stored. *)
Record ModelRun : Type := mk_run {
  cls : ModelClass;
  bulletin : option datetime
}.

(** [cls()] *)
Definition new_run (c : ModelClass) : ModelRun :=
  {| cls := c; bulletin := None |}.

(** [range(start, stop, step)] for a positive step *)
Fixpoint range_from (n : nat) (start step : Z) : list Z :=
  match n with
  | O => []
  | S n' => start :: range_from n' (start + step) step
  end.
Definition range (start stop step : Z) : list Z :=
  range_from (Z.to_nat ((stop - start + step - 1) / step)) start step.

Definition ModelRun_ : ModelClass :=
  {| class_name := "ModelRun";
     NAME := "MODEL NAME";
     EXPECTED := mk_timedelta 0 2 20;
     WARNING_AFTER := mk_timedelta 0 0 15;
     ERROR_AFTER := mk_timedelta 0 1 0;
     PATTERN := "filename_%Y%m%dT%HZ.nc";
     URL := "http://thredds/catalog.xml";
     STATUSPAGE_ID := None;
     INIT_HOURS := [0; 6; 12; 18] |}.

(** Attributes a subclass does not override are those of its base. *)
Definition MEPS : ModelClass :=
  {| class_name := "MEPS";
     NAME := NAME ModelRun_;
     EXPECTED := EXPECTED ModelRun_;
     WARNING_AFTER := WARNING_AFTER ModelRun_;
     ERROR_AFTER := ERROR_AFTER ModelRun_;
     PATTERN := PATTERN ModelRun_;
     URL := "https://thredds.met.no/thredds/catalog/mepslatest/catalog.xml";
     STATUSPAGE_ID := STATUSPAGE_ID ModelRun_;
     INIT_HOURS := range 0 24 3 |}.

Definition MEPSdet : ModelClass :=
  {| class_name := "MEPSdet";
     NAME := "MEPS deterministic";
     EXPECTED := mk_timedelta 0 3 0;
     WARNING_AFTER := WARNING_AFTER MEPS;
     ERROR_AFTER := ERROR_AFTER MEPS;
     PATTERN := "meps_det_2_5km_%Y%m%dT%HZ.ncml";
     URL := URL MEPS;
     STATUSPAGE_ID := Some "bcsflmrp5rgk";
     INIT_HOURS := INIT_HOURS MEPS |}.

Definition MEPSdetpp : ModelClass :=
  {| class_name := "MEPSdetpp";
     NAME := "MEPS deterministic post processed";
     EXPECTED := mk_timedelta 0 0 45;
     WARNING_AFTER := WARNING_AFTER MEPS;
     ERROR_AFTER := ERROR_AFTER MEPS;
     PATTERN := "met_forecast_1_0km_nordic_%Y%m%dT%HZ.nc";
     URL := "https://thredds.met.no/thredds/catalog/metpplatest/catalog.xml";
     STATUSPAGE_ID := Some "hdt6qj6f7zv5";
     INIT_HOURS := range 0 24 1 |}.

Definition MEPSens : ModelClass :=
  {| class_name := "MEPSens";
     NAME := "MEPS ensemble";
     EXPECTED := mk_timedelta 0 5 10;
     WARNING_AFTER := WARNING_AFTER MEPS;
     ERROR_AFTER := ERROR_AFTER MEPS;
     PATTERN := "meps_lagged_6_h_subset_2_5km_%Y%m%dT%HZ.ncml";
     URL := URL MEPS;
     STATUSPAGE_ID := Some "6bb2dq9t7vx9";
     INIT_HOURS := INIT_HOURS MEPS |}.

Definition AromeArctic : ModelClass :=
  {| class_name := "AromeArctic";
     NAME := NAME ModelRun_;
     EXPECTED := EXPECTED ModelRun_;
     WARNING_AFTER := WARNING_AFTER ModelRun_;
     ERROR_AFTER := ERROR_AFTER ModelRun_;
     PATTERN := PATTERN ModelRun_;
     URL := "https://thredds.met.no/thredds/catalog/aromearcticlatest/catalog.xml";
     STATUSPAGE_ID := STATUSPAGE_ID ModelRun_;
     INIT_HOURS := INIT_HOURS ModelRun_ |}.

Definition AAdet : ModelClass :=
  {| class_name := "AAdet";
     NAME := "Arome Arctic deterministic";
     EXPECTED := mk_timedelta 0 3 30;
     WARNING_AFTER := WARNING_AFTER AromeArctic;
     ERROR_AFTER := ERROR_AFTER AromeArctic;
     PATTERN := "arome_arctic_extracted_2_5km_%Y%m%dT%HZ.nc";
     URL := URL AromeArctic;
     STATUSPAGE_ID := Some "5w7hh6w1f3fr";
     INIT_HOURS := INIT_HOURS AromeArctic |}.

Definition AAdetpp : ModelClass :=
  {| class_name := "AAdetpp";
     NAME := "Arome Arctic deterministic post processed";
     EXPECTED := mk_timedelta 0 3 30;
     WARNING_AFTER := WARNING_AFTER AromeArctic;
     ERROR_AFTER := ERROR_AFTER AromeArctic;
     PATTERN := "arome_arctic_pp_2_5km_%Y%m%dT%HZ.nc";
     URL := URL AromeArctic;
     STATUSPAGE_ID := Some "n1wsnn6gr8p9";
     INIT_HOURS := INIT_HOURS AromeArctic |}.

(** [init_hours.sort(reverse=True)] *)
Fixpoint insert_desc (h : Z) (l : list Z) : list Z :=
  match l with
  | [] => [h]
  | x :: tl => if x <=? h then h :: l else x :: insert_desc h tl
  end.
Fixpoint sort_reverse (l : list Z) : list Z :=
  match l with
  | [] => []
  | h :: tl => insert_desc h (sort_reverse tl)
  end.

Section Required.
Local Open Scope result_scope.

(** The [for prev_hour in init_hours] loop of [required]: the first
    hour, projected on [date], that [utctime] has reached. *)
Fixpoint first_reached (init_hours : list Z) (date : Z) (utctime : datetime)
  : result (option datetime) :=
  match init_hours with
  | [] => Ok None
  | prev_hour :: tl =>
      prev <- utc_datetime date prev_hour ;;
      if geb utctime prev then Ok (Some prev)
      else first_reached tl date utctime
  end.

(** The instant [required] compares against *)
Definition cutoff (c : ModelClass) (datetime_ : datetime) : datetime :=
  sub (sub (astimezone_utc datetime_) (EXPECTED c)) (WARNING_AFTER c).

(** [ModelRun.required] (classmethod) *)
Definition required (c : ModelClass) (datetime_ : datetime)
  : result ModelRun :=
  let utctime := cutoff c datetime_ in
  let init_hours := sort_reverse (INIT_HOURS c) in
  found <- first_reached init_hours (date_of datetime_) utctime ;;
  match found with
  | Some prev => Ok {| cls := c; bulletin := Some prev |}
  | None =>
      let yesterday := sub utctime (mk_timedelta 1 0 0) in
      match init_hours with
      | [] => Raise IndexError
      | h0 :: _ =>
          b <- utc_datetime (date_of yesterday) h0 ;;
          Ok {| cls := c; bulletin := Some b |}
      end
  end.

(** [ModelRun.prev] *)
Definition prev (self : ModelRun) : result ModelRun :=
  match bulletin self with
  | None => Raise AssertionError
  | Some b => required (cls self) b
  end.

(** [ModelRun.is_delayed] *)
Definition is_delayed (self : ModelRun) (datetime_ : datetime)
  : result bool :=
  match bulletin self with
  | None => Raise AssertionError
  | Some b =>
      Ok (leb (add (add b (EXPECTED (cls self))) (ERROR_AFTER (cls self)))
              datetime_)
  end.

End Required.

(* ================================================================= *)
(** ** slamon/statuspage.py *)

(** Text handed to the board: a string literal of the program, or the
    result of the [str.format] call that composes an incident
    message (its template and the two values it is given). *)
Inductive template : Type := NotYetPublished | SignificantDelay.

Inductive text : Type :=
| Literal (s : string)
| Formatted (t : template) (name stamp : string).

Definition literal_in (t : text) (l : list string) : bool :=
  match t with
  | Literal s => existsb (String.eqb s) l
  | Formatted _ _ _ => false   (* longer than any status word *)
  end.

(** [class Incident] *)
Record Incident : Type := mk_incident {
  id : string;
  title : string;
  affected_components : list string
}.

(** A component, as [components.json] lists it *)
Record component : Type := mk_component {
  component_id : string;
  component_name : string;
  component_status : option string
}.

(** An incident, as [incidents/unresolved.json] lists it; each element of
    [incident_updates] is the list of the [code]s of the update's
    [affected_components]. *)
Record incident_json : Type := mk_incident_json {
  inc_id : string;
  inc_name : string;
  inc_status : text;
  inc_message : option text;
  inc_impact : option string;
  incident_updates : list (list string)
}.

(** The [payload] dicts of [create_incident] and [update_incident] *)
Record create_payload : Type := mk_create {
  p_name : string;
  p_status : string;
  p_message : text;
  p_component_ids : list (option string);
  p_impact_override : option string
}.

Record update_payload : Type := mk_update {
  u_status : option text;
  u_message : option text;
  u_impact_override : option string
}.

Definition payload_empty (p : update_payload) : bool :=
  match u_status p, u_message p, u_impact_override p with
  | None, None, None => true
  | _, _, _ => false
  end.

(** The HTTP requests [__call] sends *)
Inductive request : Type :=
| GET_components
| GET_unresolved
| PATCH_component (component_id : option string) (new_status : string)
| POST_incident (payload : create_payload)
| PATCH_incident (incident_id : string) (payload : update_payload).

Inductive response : Type :=
| Components (l : list component)
| Incidents (l : list incident_json)
| Done.

(** A board write is a request that is not a GET. *)
Definition is_write (r : request) : bool :=
  match r with
  | GET_components | GET_unresolved => false
  | _ => true
  end.

(** *** The board

    statuspage.io is not part of the repository.  This is the
    behaviour the client relies on (interface of the board in the
    specification): a component keeps the status last set, an incident
    is listed as unresolved until its status is set to [resolved], a
    created incident gets a fresh identifier, and a request that names
    an unknown component or incident fails. *)
Record Board : Type := mk_board {
  board_components : list component;
  board_incidents : list incident_json;
  board_next : nat
}.

Definition unresolved (i : incident_json) : bool :=
  negb (literal_in (inc_status i) ["resolved"]).

Definition has_component (cid : string) (b : Board) : bool :=
  existsb (fun c => String.eqb (component_id c) cid) (board_components b).

Definition has_incident (iid : string) (b : Board) : bool :=
  existsb (fun i => String.eqb (inc_id i) iid) (board_incidents b).

Definition set_component (cid new_status : string) (c : component)
  : component :=
  if String.eqb (component_id c) cid
  then mk_component (component_id c) (component_name c) (Some new_status)
  else c.

Definition or_else {A} (o : option A) (d : option A) : option A :=
  match o with Some _ => o | None => d end.

Definition patch_incident (iid : string) (p : update_payload)
    (i : incident_json) : incident_json :=
  if String.eqb (inc_id i) iid
  then mk_incident_json (inc_id i) (inc_name i)
         (match u_status p with Some s => s | None => inc_status i end)
         (or_else (u_message p) (inc_message i))
         (or_else (u_impact_override p) (inc_impact i))
         (incident_updates i)
  else i.

Fixpoint somes {A} (l : list (option A)) : list A :=
  match l with
  | [] => []
  | Some a :: tl => a :: somes tl
  | None :: tl => somes tl
  end.

Definition fresh_id (n : nat) : string :=
  "incident-" ++ NilEmpty.string_of_uint (Nat.to_uint n).

Definition serve (r : request) (b : Board) : result response * Board :=
  match r with
  | GET_components => (Ok (Components (board_components b)), b)
  | GET_unresolved =>
      (Ok (Incidents (filter unresolved (board_incidents b))), b)
  | PATCH_component (Some cid) s =>
      if has_component cid b
      then (Ok Done,
            mk_board (map (set_component cid s) (board_components b))
                     (board_incidents b) (board_next b))
      else (Raise HTTPError, b)
  | PATCH_component None _ => (Raise HTTPError, b)
  | POST_incident p =>
      (Ok Done,
       mk_board (board_components b)
         (board_incidents b ++
            [mk_incident_json (fresh_id (board_next b)) (p_name p)
               (Literal (p_status p)) (Some (p_message p))
               (p_impact_override p) [somes (p_component_ids p)]])
         (S (board_next b)))
  | PATCH_incident iid p =>
      if has_incident iid b
      then (Ok Done,
            mk_board (board_components b)
                     (map (patch_incident iid p) (board_incidents b))
                     (board_next b))
      else (Raise HTTPError, b)
  end.

(** *** The client *)

(** A [dict] with string keys, in insertion order *)
Fixpoint str_get {V} (d : list (string * V)) (k : string) : option V :=
  match d with
  | [] => None
  | (k', v) :: tl => if String.eqb k' k then Some v else str_get tl k
  end.

Fixpoint str_set {V} (d : list (string * V)) (k : string) (v : V)
  : list (string * V) :=
  match d with
  | [] => [(k, v)]
  | (k', v') :: tl =>
      if String.eqb k' k then (k, v) :: tl else (k', v') :: str_set tl k v
  end.

(** The fields of a [StatusPage] object *)
Record StatusPage : Type := mk_page {
  components : list (string * component);
  active_incidents : list (string * Incident);
  dryrun : bool
}.

(** The client object, the board, and the requests sent so far (most
    recent last). *)
Record System : Type := mk_system {
  page : StatusPage;
  board : Board;
  requests : list request
}.

Definition M (A : Type) : Type := System -> result A * System.

Definition ret {A} (a : A) : M A := fun s => (Ok a, s).
Definition raise {A} (e : exn) : M A := fun s => (Raise e, s).
Definition bind {A B} (m : M A) (k : A -> M B) : M B :=
  fun s => match m s with
           | (Ok a, s') => k a s'
           | (Raise e, s') => (Raise e, s')
           end.
Definition lift {A} (r : result A) : M A := fun s => (r, s).
Definition get_page : M StatusPage := fun s => (Ok (page s), s).
Definition set_page (p : StatusPage) : M unit :=
  fun s => (Ok tt, mk_system p (board s) (requests s)).
(** [try: m except: pass] *)
Definition try_pass (m : M unit) : M unit :=
  fun s => (Ok tt, snd (m s)).

Declare Scope sys_scope.
Delimit Scope sys_scope with sys.
Notation "x <- m ;; k" := (bind m (fun x => k))
  (at level 61, m at next level, right associativity) : sys_scope.
Notation "m ;;; k" := (bind m (fun _ => k))
  (at level 61, right associativity) : sys_scope.

Section Client.
Local Open Scope sys_scope.

(** [StatusPage.__call]: one request, answered by the board *)
Definition call (r : request) : M response :=
  fun s =>
    let (resp, b') := serve r (board s) in
    (resp, mk_system (page s) b' (requests s ++ [r])).

(** [StatusPage.__update_local_component_status] *)
Definition update_local_component_status : M unit :=
  data <- call GET_components ;;
  match data with
  | Components l =>
      p <- get_page ;;
      set_page
        (mk_page
           (fold_left (fun d c => str_set d (component_id c) c) l
                      (components p))
           (active_incidents p) (dryrun p))
  | _ => ret tt
  end.

(** The codes of an incident's updates, each once, in order of first
    appearance *)
Definition add_code (acc : list string) (code : string) : list string :=
  if existsb (String.eqb code) acc then acc else acc ++ [code].

Definition incident_of (i : incident_json) : Incident :=
  mk_incident (inc_id i) (inc_name i)
    (fold_left (fun acc update => fold_left add_code update acc)
               (incident_updates i) []).

(** [StatusPage.__update_local_incident_status] *)
Definition update_local_incident_status : M unit :=
  data <- call GET_unresolved ;;
  let active :=
    match data with
    | Incidents l =>
        fold_left (fun d i => let obj := incident_of i in
                              str_set d (id obj) obj) l []
    | _ => []
    end in
  p <- get_page ;;
  set_page (mk_page (components p) active (dryrun p)).

(** [StatusPage.__init__] *)
Definition StatusPage_init (dryrun_ : bool) : M unit :=
  set_page (mk_page [] [] dryrun_) ;;;
  update_local_component_status ;;;
  update_local_incident_status.

(** [StatusPage.get_incidents_for_component] *)
Definition get_incidents_for_component (p : StatusPage)
    (component_id : option string) : list Incident :=
  filter (fun incident =>
            match component_id with
            | Some c => existsb (String.eqb c) (affected_components incident)
            | None => false
            end)
         (map snd (active_incidents p)).

(** [StatusPage.__get_status] *)
Definition get_status (p : StatusPage) (component_id : option string)
  : option string :=
  match component_id with
  | Some c =>
      match str_get (components p) c with
      | Some comp => component_status comp
      | None => None
      end
  | None => None
  end.

(** [StatusPage.__set_status] *)
Definition set_status (component_id : option string) (new_status : string)
  : M unit :=
  if existsb (String.eqb new_status)
       ["operational"; "degraded_performance"; "partial_outage";
        "major_outage"]
  then
    p <- get_page ;;
    if dryrun p then ret tt
    else try_pass (_ <- call (PATCH_component component_id new_status) ;;
                   ret tt)
  else raise AssertionError.

(** A string is true unless it is empty. *)
Definition truthy (o : option string) : bool :=
  match o with
  | Some s => negb (String.eqb s "")
  | None => false
  end.

(** [StatusPage.status] *)
Definition status (component_id : option string)
    (new_status : option string) : M (option string) :=
  (if truthy new_status
   then match new_status with
        | Some s => set_status component_id s ;;;
                    update_local_component_status
        | None => ret tt
        end
   else ret tt) ;;;
  p <- get_page ;;
  ret (get_status p component_id).

Definition check_impact (impact : option string) : M (option string) :=
  if truthy impact
  then if match impact with
          | Some i => existsb (String.eqb i) ["none"; "minor"; "major"]
          | None => false
          end
       then ret impact
       else raise AssertionError
  else ret None.

(** [StatusPage.create_incident] *)
Definition create_incident (component_id : option string) (title : string)
    (message : text) (impact : option string) : M unit :=
  impact_override <- check_impact impact ;;
  let payload :=
    mk_create title "investigating" message [component_id] impact_override in
  p <- get_page ;;
  if dryrun p then ret tt
  else
    _ <- call (POST_incident payload) ;;
    update_local_incident_status.

(** [StatusPage.update_incident] *)
Definition update_incident (incident_id : string)
    (status_ message : option text) (impact : option string) : M unit :=
  (match status_ with
   | Some s =>
       if literal_in s ["investigating"; "identified"; "monitoring";
                        "resolved"]
       then ret tt else raise AssertionError
   | None => ret tt
   end) ;;;
  impact_override <- check_impact impact ;;
  let payload := mk_update status_ message impact_override in
  if payload_empty payload then ret tt
  else
    p <- get_page ;;
    if dryrun p then ret tt
    else
      _ <- call (PATCH_incident incident_id payload) ;;
      ret tt.

(** [StatusPage.resolve_incident] *)
Definition resolve_incident (incident_id : string) : M unit :=
  update_incident incident_id (Some (Literal "resolved"))
    (Some (Literal
       "Our monitoring system has detected that this incident has been resolved."))
    None.

End Client.
(* ================================================================= *)
(** ** slamon/thredds.py: what a node holds after [fetch] *)

Definition ModelClass_eq_dec (a b : ModelClass) : {a = b} + {a <> b}.
Proof.
  decide equality;
    try apply string_dec; try apply Z.eq_dec;
    try (apply list_eq_dec; apply Z.eq_dec).
  decide equality; apply string_dec.
Defined.

(** A [dict] keyed by model classes, in insertion order *)
Fixpoint dict_get {V} (d : list (ModelClass * V)) (k : ModelClass)
  : option V :=
  match d with
  | [] => None
  | (k', v) :: tl => if ModelClass_eq_dec k' k then Some v else dict_get tl k
  end.

Fixpoint dict_set {V} (d : list (ModelClass * V)) (k : ModelClass) (v : V)
  : list (ModelClass * V) :=
  match d with
  | [] => [(k, v)]
  | (k', v') :: tl =>
      if ModelClass_eq_dec k' k then (k, v) :: tl
      else (k', v') :: dict_set tl k v
  end.

(** [ApplicationNode]: [result] maps a model class to the instance that
    holds the most recent bulletin the node has published (its
    [bulletin] is still [False] when the node gave none). *)
Record ApplicationNode : Type := mk_node {
  name : string;
  node_result : list (ModelClass * ModelRun)
}.

(* ================================================================= *)
(** ** slamon.py *)

(** What [_bulletin] returns: [None], [False] or a datetime *)
Inductive bulletin_value : Type :=
| IsNone
| IsFalse
| IsDatetime (d : datetime).

(** [_bulletin(dct, key)]; a [ModelRun] object is always true. *)
Definition _bulletin (dct : list (ModelClass * ModelRun)) (key : ModelClass)
  : bulletin_value :=
  match dict_get dct key with
  | Some obj =>
      match bulletin obj with
      | Some d => IsDatetime d
      | None => IsFalse
      end
  | None => IsNone
  end.

Section Slamon.
Local Open Scope result_scope.

(** The [for node in nodes] loop of [extract_most_recent_bulletin] *)
Fixpoint agree_on (model : ModelClass) (nodes : list ApplicationNode)
    (most_recent_bulletin : list (ModelClass * ModelRun))
  : result (list (ModelClass * ModelRun)) :=
  match nodes with
  | [] => Ok most_recent_bulletin
  | node :: tl =>
      let kept_bulletin := _bulletin most_recent_bulletin model in
      let candidate_bulletin := _bulletin (node_result node) model in
      match candidate_bulletin with
      | IsDatetime candidate =>
          keep <- match kept_bulletin with
                  | IsNone => Ok true
                  | IsDatetime kept => Ok (ltb candidate kept)
                  | IsFalse => Raise TypeError
                  end ;;
          if keep : bool then
            match dict_get (node_result node) model with
            | Some obj =>
                agree_on model tl (dict_set most_recent_bulletin model obj)
            | None => Raise KeyError
            end
          else agree_on model tl most_recent_bulletin
      | _ => agree_on model tl most_recent_bulletin
      end
  end.

(** The [for model in models] loop *)
Fixpoint agree_all (models : list ModelClass) (nodes : list ApplicationNode)
    (most_recent_bulletin : list (ModelClass * ModelRun))
  : result (list (ModelClass * ModelRun)) :=
  match models with
  | [] => Ok most_recent_bulletin
  | model :: tl =>
      d <- agree_on model nodes most_recent_bulletin ;;
      agree_all tl nodes d
  end.

(** [extract_most_recent_bulletin] *)
Definition extract_most_recent_bulletin (models : list ModelClass)
    (nodes : list ApplicationNode) : result (list (ModelClass * ModelRun)) :=
  agree_all models nodes [].

(** Attribute lookup on a class object of [modelrun.py]: the class
    constants and the methods; [bulletin] exists on instances only. *)
Inductive attribute : Type :=
| AStr (s : string)
| ADelta (t : timedelta)
| AHours (l : list Z)
| ANoneOrStr (o : option string)
| AMethod (name : string).

Definition class_getattr (c : ModelClass) (attr : string)
  : result attribute :=
  if String.eqb attr "NAME" then Ok (AStr (NAME c))
  else if String.eqb attr "EXPECTED" then Ok (ADelta (EXPECTED c))
  else if String.eqb attr "WARNING_AFTER" then Ok (ADelta (WARNING_AFTER c))
  else if String.eqb attr "ERROR_AFTER" then Ok (ADelta (ERROR_AFTER c))
  else if String.eqb attr "PATTERN" then Ok (AStr (PATTERN c))
  else if String.eqb attr "URL" then Ok (AStr (URL c))
  else if String.eqb attr "STATUSPAGE_ID"
       then Ok (ANoneOrStr (STATUSPAGE_ID c))
  else if String.eqb attr "INIT_HOURS" then Ok (AHours (INIT_HOURS c))
  else if existsb (String.eqb attr)
            ["__init__"; "required"; "prev"; "is_delayed"]
       then Ok (AMethod attr)
  else Raise AttributeError.

(** [a.strftime('%Y-%m-%d %H %Z')]: none of the values a class
    attribute can hold has a [strftime]. *)
Definition strftime (a : attribute) : result string :=
  match a with
  | AStr _ | ADelta _ | AHours _ | ANoneOrStr _ | AMethod _ =>
      Raise AttributeError
  end.

(** The [message = "...".format(model.NAME, model.bulletin.strftime(...))]
    assignments of [main], where [model] is the class *)
Definition compose_message (t : template) (model : ModelClass)
  : result text :=
  b <- class_getattr model "bulletin" ;;
  stamp <- strftime b ;;
  Ok (Formatted t (NAME model) stamp).

(** The condition of the [if] of line 111 of [main] *)
Definition escalate (required_model : ModelRun) (now : datetime)
    (consensus : datetime) : result bool :=
  delayed <- is_delayed required_model now ;;
  if delayed : bool then Ok true
  else
    p <- prev required_model ;;
    match bulletin p with
    | Some pb => Ok (gtb pb consensus)
    | None => Raise TypeError
    end.

(** The status and the impact the [else] branch of [main] ends with
    (lines 105, 109, 112 and 113) *)
Definition degraded_targets (escalated : bool) : string * string :=
  if escalated then ("degraded_performance", "minor")
  else ("operational", "none").

End Slamon.

Section Main.
Local Open Scope sys_scope.

(** [resolve(statuspage, model, component_status, open_incident)] *)
Definition resolve (model : ModelClass) (component_status : string)
    (open_incident : option Incident) : M unit :=
  current <- status (STATUSPAGE_ID model) None ;;
  (if match current with
      | Some s => String.eqb s component_status
      | None => false
      end
   then ret tt
   else _ <- status (STATUSPAGE_ID model) (Some component_status) ;; ret tt)
  ;;;
  match open_incident with
  | Some incident => resolve_incident (id incident)
  | None => ret tt
  end.

(** The loop of [main] that looks for the open incident of a model *)
Definition find_open_incident (p : StatusPage) (model : ModelClass)
    (title_ : string) : option Incident :=
  find (fun incident => String.eqb (title incident) title_)
       (get_incidents_for_component p (STATUSPAGE_ID model)).

(** Lines 116 to 122 of [main] *)
Definition reconcile_degraded (model : ModelClass) (title_ : string)
    (component_status impact : string) (message : text)
    (open_incident : option Incident) : M unit :=
  match open_incident with
  | Some incident =>
      current <- status (STATUSPAGE_ID model) None ;;
      if match current with
         | Some s => String.eqb s component_status
         | None => false
         end
      then ret tt
      else
        _ <- status (STATUSPAGE_ID model) (Some component_status) ;;
        (* update_incident(open_incident.id, message, impact=impact):
           the second positional parameter is [status] *)
        update_incident (id incident) (Some message) None (Some impact)
  | None =>
      _ <- status (STATUSPAGE_ID model) (Some component_status) ;;
      create_incident (STATUSPAGE_ID model) title_ message (Some impact)
  end.

(** The [else] branch of [main], lines 109 to 122 *)
Definition degraded (model : ModelClass) (title_ : string)
    (required_model : ModelRun) (now consensus : datetime)
    (open_incident : option Incident) : M unit :=
  message <- lift (compose_message NotYetPublished model) ;;
  escalated <- lift (escalate required_model now consensus) ;;
  message <- (if escalated : bool
              then lift (compose_message SignificantDelay model)
              else ret message) ;;
  let (component_status, impact) := degraded_targets escalated in
  reconcile_degraded model title_ component_status impact message
    open_incident.

(** The body of the [for model in most_recent_bulletin] loop of [main];
    [most_recent] is [most_recent_bulletin[model]]. *)
Definition evaluate_model (now : datetime) (model : ModelClass)
    (most_recent : ModelRun) : M unit :=
  let title_ := (NAME model ++ " production")%string in
  required_model <- lift (required model now) ;;
  p <- get_page ;;
  let open_incident := find_open_incident p model title_ in
  let component_status := "operational" in
  match bulletin most_recent, bulletin required_model with
  | Some consensus, Some req =>
      if geb consensus req
      then resolve model component_status open_incident
      else degraded model title_ required_model now consensus open_incident
  | _, _ => raise TypeError
  end.

Fixpoint evaluate_all (now : datetime)
    (most_recent_bulletin : list (ModelClass * ModelRun)) : M unit :=
  match most_recent_bulletin with
  | [] => ret tt
  | (model, most_recent) :: tl =>
      evaluate_model now model most_recent ;;;
      evaluate_all now tl
  end.

(** The models [main] monitors *)
Definition models_of_main : list ModelClass :=
  [MEPSdet; MEPSdetpp; MEPSens; AAdet; AAdetpp].

(** [main], from the nodes as [fetch_nodes] leaves them and the instant
    [now] it reads *)
Definition main (dryrun_ : bool) (models : list ModelClass)
    (nodes : list ApplicationNode) (now : datetime) : M unit :=
  most_recent_bulletin <- lift (extract_most_recent_bulletin models nodes) ;;
  StatusPage_init dryrun_ ;;;
  evaluate_all now most_recent_bulletin.

End Main.

(* ================================================================= *)
(** ** Specification predicates *)

Definition valid_hours (c : ModelClass) : Prop :=
  Forall (fun h => 0 <= h < 24) (INIT_HOURS c).

(** A cadence instant of [c]: some day, at one of the hours of
    [INIT_HOURS], zero minutes and seconds, in UTC. *)
Definition cadence_time (c : ModelClass) (t : Z) : Prop :=
  exists date h,
    In h (INIT_HOURS c) /\ t = date * usec_per_day + h * usec_per_hour.

Definition cadence_instant (c : ModelClass) (d : datetime) : Prop :=
  utcoffset d = 0 /\ cadence_time c (instant d).

(** What the specification asks of [required]: the latest cadence
    instant that is not after the cutoff. *)
Definition latest_required (c : ModelClass) (T b : datetime) : Prop :=
  cadence_instant c b
  /\ instant b <= instant (cutoff c T)
  /\ forall t, cadence_time c t -> t <= instant (cutoff c T) -> t <= instant b.

Definition reached (date : Z) (u : datetime) (h : Z) : Prop :=
  date * usec_per_day + h * usec_per_hour <= instant u.


(** What a node observed for a model, if anything *)
Definition observation (node : ApplicationNode) (m : ModelClass)
  : option datetime :=
  match _bulletin (node_result node) m with
  | IsDatetime d => Some d
  | _ => None
  end.

(** The observations of the nodes that have one, in the order of the
    nodes *)
Definition observed (nodes : list ApplicationNode) (m : ModelClass)
  : list datetime :=
  flat_map (fun n => match observation n m with
                     | Some d => [d]
                     | None => []
                     end) nodes.

(** The consensus for a model: what [_bulletin] finds in the result of
    [extract_most_recent_bulletin] *)
Definition consensus (models : list ModelClass)
    (nodes : list ApplicationNode) (m : ModelClass) : result bulletin_value :=
  rbind (extract_most_recent_bulletin models nodes)
        (fun d => Ok (_bulletin d m)).

(** Every stored object holds a bulletin. *)
Definition stored_bulletins (d : list (ModelClass * ModelRun)) : Prop :=
  forall k obj, dict_get d k = Some obj -> bulletin obj <> None.

Definition kept (d : list (ModelClass * ModelRun)) (m : ModelClass)
  : option datetime :=
  match _bulletin d m with
  | IsDatetime b => Some b
  | _ => None
  end.

(** What the inner loop keeps, on the observations alone *)
Fixpoint keep_least (k : option datetime) (obs : list datetime)
  : option datetime :=
  match obs with
  | [] => k
  | c :: tl =>
      keep_least (match k with
                  | None => Some c
                  | Some b => if ltb c b then Some c else Some b
                  end) tl
  end.

Definition least_of (r : datetime) (l : list datetime) : Prop :=
  In r l /\ forall c, In c l -> instant r <= instant c.

(** The consensus as the specification words it: absent when the node
    set is empty or some node has no observation, else the least of
    all the nodes' observations. *)
Definition fail_safe_consensus (models : list ModelClass)
    (nodes : list ApplicationNode) (m : ModelClass) : Prop :=
  ((nodes = [] \/ exists n, In n nodes /\ observation n m = None) ->
   consensus models nodes m = Ok IsNone)
  /\ (nodes <> [] ->
      (forall n, In n nodes -> observation n m <> None) ->
      exists r, consensus models nodes m = Ok (IsDatetime r)
                /\ least_of r (observed nodes m)).

(** *** Board writes and passes *)

Definition writes (s : System) : list request :=
  filter is_write (requests s).

(** A system whose client has not been built yet *)
Definition boot (b : Board) : System :=
  mk_system (mk_page [] [] false) b [].

(** One pass of [main] for a single model whose consensus is
    [most_recent]: the client is built from the board, then the body of
    the loop runs. *)
Definition pass (dryrun_ : bool) (now : datetime) (model : ModelClass)
    (most_recent : ModelRun) : M unit :=
  bind (StatusPage_init dryrun_)
       (fun _ => evaluate_model now model most_recent).

(** The status and impact the degraded branch aims at *)
Definition targets (model : ModelClass) (now consensus_ : datetime)
  : result (string * string) :=
  rbind (required model now) (fun required_model =>
  rbind (escalate required_model now consensus_) (fun escalated =>
  Ok (degraded_targets escalated))).

(** The consensus meets the requirement at [now]. *)
Definition healthy (model : ModelClass) (now : datetime)
    (most_recent : ModelRun) : Prop :=
  exists required_model c r,
    required model now = Ok required_model
    /\ bulletin required_model = Some r
    /\ bulletin most_recent = Some c
    /\ instant r <= instant c.

(** The consensus is behind the requirement at [now]. *)
Definition behind (model : ModelClass) (now : datetime)
    (most_recent : ModelRun) : Prop :=
  exists required_model c r,
    required model now = Ok required_model
    /\ bulletin required_model = Some r
    /\ bulletin most_recent = Some c
    /\ instant c < instant r.

Definition canonical_title (model : ModelClass) : string :=
  (NAME model ++ " production")%string.

(** *** Example data *)

Definition node_of (n : string) (m : ModelClass) (b : option datetime)
  : ApplicationNode :=
  mk_node n [(m, mk_run m b)].

Definition an_incident (i : string) (m : ModelClass) (cid : string)
  : incident_json :=
  mk_incident_json i (canonical_title m) (Literal "investigating")
    None (Some "minor") [[cid]].

Definition board_of (status_ : string) (incidents : list incident_json)
  : Board :=
  mk_board [mk_component "bcsflmrp5rgk" "MEPS deterministic" (Some status_)]
           incidents 0.

Definition silent_node_nodes : list ApplicationNode :=
  [node_of "a" MEPSdet (Some (utc 1970 1 1 9 0));
   node_of "b" MEPSdet (Some (utc 1970 1 1 9 0));
   node_of "c" MEPSdet None].

Definition resolved_payload : update_payload :=
  mk_update (Some (Literal "resolved"))
    (Some (Literal
       "Our monitoring system has detected that this incident has been resolved."))
    None.

(** The fail-safe as the specification words it: when a node has no
    observation while the other nodes hold current bulletins, the
    consensus is absent and the pass does not report the model
    healthy. *)
Definition silent_node_degrades (models : list ModelClass)
    (nodes : list ApplicationNode) (m : ModelClass) (now : datetime)
    (s : System) : Prop :=
  (exists n, In n nodes /\ observation n m = None) ->
  (exists required_model r,
      required m now = Ok required_model
      /\ bulletin required_model = Some r
      /\ observed nodes m <> []
      /\ forall c, In c (observed nodes m) -> instant r <= instant c) ->
  consensus models nodes m = Ok IsNone
  /\ ~ In (PATCH_component (STATUSPAGE_ID m) "operational")
          (requests (snd (main false models nodes now s))).

(** The default severity as the specification words it: behind the
    requirement and not escalated, the targets are
    [degraded_performance] and [minor]. *)
Definition mild_is_degraded_minor (model : ModelClass)
    (now consensus_ : datetime) : Prop :=
  forall required_model r,
    required model now = Ok required_model ->
    bulletin required_model = Some r ->
    instant consensus_ < instant r ->
    escalate required_model now consensus_ = Ok false ->
    targets model now consensus_ = Ok ("degraded_performance", "minor").

(** *** What a freshly built client sees of a board *)

Definition view_components (b : Board) : list (string * component) :=
  fold_left (fun d c => str_set d (component_id c) c)
            (board_components b) [].

Definition view_incidents (b : Board) : list (string * Incident) :=
  fold_left (fun d i => str_set d (id (incident_of i)) (incident_of i))
            (filter unresolved (board_incidents b)) [].

Definition view (dryrun_ : bool) (b : Board) : StatusPage :=
  mk_page (view_components b) (view_incidents b) dryrun_.

(** An incident of the board that carries the canonical title of the
    model and affects its component *)
Definition canonical (model : ModelClass) (i : incident_json) : bool :=
  String.eqb (inc_name i) (canonical_title model)
  && match STATUSPAGE_ID model with
     | Some c => existsb (String.eqb c) (affected_components (incident_of i))
     | None => false
     end.

(** At most one open incident of the board is canonical for the model. *)
Definition single_canonical (model : ModelClass) (b : Board) : Prop :=
  forall i j,
    In i (board_incidents b) -> In j (board_incidents b) ->
    unresolved i = true -> unresolved j = true ->
    canonical model i = true -> canonical model j = true ->
    inc_id i = inc_id j.

Definition is_operational (o : option string) : bool :=
  match o with
  | Some s => String.eqb s "operational"
  | None => false
  end.

(** The board after the status push of [resolve], and after its
    [resolve_incident] *)
Definition after_status (cid : string) (b : Board) : Board :=
  if is_operational (get_status (view false b) (Some cid)) then b
  else mk_board (map (set_component cid "operational") (board_components b))
                (board_incidents b) (board_next b).

Definition after_resolve (open_incident : option Incident) (b : Board)
  : Board :=
  match open_incident with
  | Some inc =>
      mk_board (board_components b)
               (map (patch_incident (id inc) resolved_payload)
                    (board_incidents b))
               (board_next b)
  | None => b
  end.

(** The board knows the component of the model. *)
Definition known_component (model : ModelClass) (b : Board) : Prop :=
  exists cid, STATUSPAGE_ID model = Some cid /\ has_component cid b = true.

(** Idempotence of the healthy path as the specification words it: a
    second pass, on the state the first pass left, sends no write. *)
Definition second_pass_silent (dryrun_ : bool) (now1 now2 : datetime)
    (model : ModelClass) (most_recent : ModelRun) (s0 : System) : Prop :=
  healthy model now1 most_recent -> healthy model now2 most_recent ->
  let s1 := snd (pass dryrun_ now1 model most_recent s0) in
  let s2 := snd (pass dryrun_ now2 model most_recent s1) in
  writes s2 = writes s1.

(* ================================================================= *)
(** ** slamon/thredds.py: fetching a node

    Two library calls are parameters of the model:
    [strptime name pattern] is [datetime.datetime.strptime(name, pattern)]
    read as UTC ([None] stands for its [ValueError]); [web url] is
    [requests.get(url)] followed by [raise_for_status] and by the
    extraction of the [name] attributes that [__callback] iterates
    over, or the exception one of them raises. *)

(** [ApplicationNode.__init__]: a fresh instance for each model class *)
Definition ApplicationNode_init (models : list ModelClass) (name_ : string)
  : ApplicationNode :=
  mk_node name_
    (fold_left (fun d model => dict_set d model (new_run model)) models []).

(** The body of the inner loop of [__callback] for one instance *)
Definition see (strptime : string -> string -> option Z)
    (dataset_name : string) (model : ModelRun) : ModelRun :=
  match strptime dataset_name (PATTERN (cls model)) with
  | None => model
  | Some t =>
      let bulletin_ := mk_datetime t 0 in
      if match bulletin model with
         | None => true
         | Some b => gtb bulletin_ b
         end
      then mk_run (cls model) (Some bulletin_)
      else model
  end.

(** [ApplicationNode.__callback], on the names of the datasets of a
    catalog: every instance of the node sees every name. *)
Definition callback (strptime : string -> string -> option Z)
    (names : list string) (result_ : list (ModelClass * ModelRun))
  : list (ModelClass * ModelRun) :=
  fold_left
    (fun d dataset_name =>
       map (fun kv => (fst kv, see strptime dataset_name (snd kv))) d)
    names result_.

(** The loop of [ApplicationNode.fetch] over the keys of [self.result];
    the state is [self.result] and [self.urls], and it is kept when a
    request raises. *)
Fixpoint fetch_loop (web : string -> result (list string))
    (strptime : string -> string -> option Z) (keys : list ModelClass)
    (result_ : list (ModelClass * ModelRun)) (urls : list string)
  : result unit * (list (ModelClass * ModelRun) * list string) :=
  match keys with
  | [] => (Ok tt, (result_, urls))
  | k :: tl =>
      match dict_get result_ k with
      | None => (Raise KeyError, (result_, urls))
      | Some model =>
          if existsb (String.eqb (URL (cls model))) urls
          then fetch_loop web strptime tl result_ urls
          else
            let urls' := urls ++ [URL (cls model)] in
            match web (URL (cls model)) with
            | Ok names =>
                fetch_loop web strptime tl (callback strptime names result_)
                           urls'
            | Raise e => (Raise e, (result_, urls'))
            end
      end
  end.

(** [ApplicationNode.fetch] *)
Definition fetch (web : string -> result (list string))
    (strptime : string -> string -> option Z) (node : ApplicationNode)
    (urls : list string)
  : result unit * (list (ModelClass * ModelRun) * list string) :=
  fetch_loop web strptime (map fst (node_result node)) (node_result node)
             urls.

(** [fetch_nodes]: each thread fetches its own node, and an exception ends
    that thread only; the nodes are the ones [main] has just built, with
    no URL fetched yet. *)
Definition fetch_nodes (web : string -> result (list string))
    (strptime : string -> string -> option Z) (nodes : list ApplicationNode)
  : list ApplicationNode :=
  map (fun node => mk_node (name node)
                     (fst (snd (fetch web strptime node []))))
      nodes.

(** The bulletins a catalog holds for a pattern *)
Definition parsed (strptime : string -> string -> option Z)
    (pattern : string) (names : list string) : list Z :=
  flat_map (fun n => match strptime n pattern with
                     | Some t => [t]
                     | None => []
                     end) names.

(** [a] is not more recent than [b]; no bulletin ([False]) is below all. *)
Definition not_after (a b : option datetime) : Prop :=
  match a, b with
  | None, _ => True
  | Some _, None => False
  | Some x, Some y => instant x <= instant y
  end.

(** What one instance becomes once it has seen every name of a catalog *)
Definition seen (strptime : string -> string -> option Z)
    (names : list string) (model : ModelRun) : ModelRun :=
  fold_left (fun o dataset_name => see strptime dataset_name o) names model.

(** *** More example data *)

(** A class whose cadence names an hour that is not an hour of the day *)
Definition hour_24 : ModelClass :=
  {| class_name := "hour_24";
     NAME := NAME ModelRun_;
     EXPECTED := EXPECTED ModelRun_;
     WARNING_AFTER := WARNING_AFTER ModelRun_;
     ERROR_AFTER := ERROR_AFTER ModelRun_;
     PATTERN := PATTERN ModelRun_;
     URL := URL ModelRun_;
     STATUSPAGE_ID := STATUSPAGE_ID ModelRun_;
     INIT_HOURS := [0; 12; 24] |}.

(** An unreachable server, and names that never parse *)
Definition no_web (url : string) : result (list string) := Raise HTTPError.
Definition no_parse (dataset_name pattern : string) : option Z := None.

(* ================================================================= *)
(** ** What an operation sends *)

(** Every request [m] sends, from any state, satisfies [P]. *)
Definition emits {A} (P : request -> Prop) (m : M A) : Prop :=
  forall s, exists added,
    requests (snd (m s)) = requests s ++ added /\ Forall P added.

(** From a client in dry-run mode, [m] sends no write and leaves the
    client in dry-run mode. *)
Definition dry {A} (m : M A) : Prop :=
  forall s, dryrun (page s) = true ->
    dryrun (page (snd (m s))) = true /\ writes (snd (m s)) = writes s.

Definition reads_only (r : request) : Prop := is_write r = false.

(** A status push to [operational], or the resolution of an incident *)
Definition healthy_report (r : request) : Prop :=
  is_write r = false
  \/ (exists cid, r = PATCH_component cid "operational")
  \/ (exists iid, r = PATCH_incident iid resolved_payload).

Definition component_statuses : list string :=
  ["operational"; "degraded_performance"; "partial_outage"; "major_outage"].

Definition incident_statuses : list string :=
  ["investigating"; "identified"; "monitoring"; "resolved"].

Definition impacts : list string := ["none"; "minor"; "major"].

Definition valid_impact (o : option string) : Prop :=
  match o with
  | Some i => In i impacts
  | None => True
  end.

Definition valid_update (p : update_payload) : Prop :=
  match u_status p with
  | Some t => exists w, t = Literal w /\ In w incident_statuses
  | None => True
  end
  /\ valid_impact (u_impact_override p)
  /\ payload_empty p = false.
(** The doctests of [modelrun.py] *)
Example required_doctest_1 :
  required ModelRun_ (utc 1970 1 1 0 0)
  = Ok (mk_run ModelRun_ (Some (utc 1969 12 30 18 0))).
Proof. reflexivity. Qed.

Example required_doctest_2 :
  required ModelRun_ (add (utc 1970 1 1 0 0) (EXPECTED ModelRun_))
  = Ok (mk_run ModelRun_ (Some (utc 1969 12 30 18 0))).
Proof. reflexivity. Qed.

Example required_doctest_3 :
  required ModelRun_
    (add (add (utc 1970 1 1 0 0) (EXPECTED ModelRun_))
         (WARNING_AFTER ModelRun_))
  = Ok (mk_run ModelRun_ (Some (utc 1970 1 1 0 0))).
Proof. reflexivity. Qed.

Example required_doctest_4 :
  required ModelRun_
    (add (add (utc 1970 1 1 18 12) (EXPECTED ModelRun_))
         (WARNING_AFTER ModelRun_))
  = Ok (mk_run ModelRun_ (Some (utc 1970 1 1 18 0))).
Proof. reflexivity. Qed.

Example prev_doctest :
  prev (mk_run ModelRun_ (Some (utc 1970 1 1 0 0)))
  = Ok (mk_run ModelRun_ (Some (utc 1969 12 30 18 0))).
Proof. reflexivity. Qed.

Example is_delayed_doctest :
  is_delayed (mk_run ModelRun_ (Some (utc 1970 1 1 0 0))) (utc 1970 1 1 0 0)
  = Ok false
  /\ is_delayed (mk_run ModelRun_ (Some (utc 1970 1 1 0 0)))
       (add (add (utc 1970 1 1 0 0) (EXPECTED ModelRun_))
            (ERROR_AFTER ModelRun_))
     = Ok true.
Proof. split; reflexivity. Qed.

(* ================================================================= *)
(** ** The schedule model *)

Lemma usec_per_hour_eq : usec_per_hour = 3600000000.
Proof. reflexivity. Qed.

Lemma usec_per_day_eq : usec_per_day = 86400000000.
Proof. reflexivity. Qed.

Ltac unfold_time :=
  unfold date_of, cutoff, sub, add, astimezone_utc, mk_timedelta,
    geb, leb, ltb, gtb in *;
  cbn [instant utcoffset] in *;
  rewrite ?usec_per_hour_eq, ?usec_per_day_eq in *.

Lemma day_floor (x : Z) :
  (x / 86400000000) * 86400000000 <= x
  < (x / 86400000000) * 86400000000 + 86400000000.
Proof.
  pose proof (Z.div_mod x 86400000000 ltac:(lia)).
  pose proof (Z.mod_pos_bound x 86400000000 ltac:(lia)).
  lia.
Qed.

Lemma day_before (x : Z) :
  (x - 86400000000) / 86400000000 = x / 86400000000 - 1.
Proof.
  replace (x - 86400000000) with (x + (-1) * 86400000000) by lia.
  rewrite Z.div_add by lia. lia.
Qed.

Lemma utc_datetime_valid (date h : Z) :
  0 <= h < 24 ->
  utc_datetime date h
  = Ok {| instant := date * usec_per_day + h * usec_per_hour;
          utcoffset := 0 |}.
Proof.
  intros Hh. unfold utc_datetime.
  replace (0 <=? h) with true by (symmetry; apply Z.leb_le; lia).
  replace (h <? 24) with true by (symmetry; apply Z.ltb_lt; lia).
  reflexivity.
Qed.

(** *** Sorting the hours *)

Lemma In_insert_desc (h x : Z) (l : list Z) :
  In x (insert_desc h l) <-> x = h \/ In x l.
Proof.
  induction l as [|y tl IH]; cbn.
  - intuition.
  - destruct (y <=? h); cbn; rewrite ?IH; intuition.
Qed.

Lemma In_sort_reverse (x : Z) (l : list Z) :
  In x (sort_reverse l) <-> In x l.
Proof.
  induction l as [|y tl IH]; cbn.
  - tauto.
  - rewrite In_insert_desc, IH. intuition.
Qed.

Lemma sort_reverse_nil (l : list Z) : sort_reverse l = [] -> l = [].
Proof.
  destruct l as [|y tl]; [reflexivity|].
  intros H. assert (Hin : In y (sort_reverse (y :: tl)))
    by (apply In_sort_reverse; now left).
  rewrite H in Hin. destruct Hin.
Qed.

Lemma insert_desc_sorted (h : Z) (l : list Z) :
  StronglySorted Z.ge l -> StronglySorted Z.ge (insert_desc h l).
Proof.
  induction 1 as [|y tl Hs IH Hall]; cbn.
  - repeat constructor.
  - destruct (y <=? h) eqn:E.
    + apply Z.leb_le in E. constructor.
      * now constructor.
      * constructor; [lia|].
        eapply Forall_impl; [|exact Hall]. cbn. intros; lia.
    + apply Z.leb_gt in E. constructor; [exact IH|].
      apply Forall_forall. intros x Hx.
      apply In_insert_desc in Hx. destruct Hx as [->|Hx]; [lia|].
      rewrite Forall_forall in Hall. now apply Hall.
Qed.

Lemma sort_reverse_sorted (l : list Z) :
  StronglySorted Z.ge (sort_reverse l).
Proof.
  induction l as [|y tl IH]; cbn.
  - constructor.
  - now apply insert_desc_sorted.
Qed.

Lemma valid_sorted_hours (c : ModelClass) :
  valid_hours c -> Forall (fun h => 0 <= h < 24) (sort_reverse (INIT_HOURS c)).
Proof.
  unfold valid_hours. rewrite !Forall_forall. intros H x Hx.
  apply H. now apply In_sort_reverse.
Qed.

(** *** The loop of [required] *)

Lemma first_reached_spec (hours : list Z) (date : Z) (u : datetime) :
  Forall (fun h => 0 <= h < 24) hours ->
  (exists h skipped rest,
      hours = skipped ++ h :: rest
      /\ Forall (fun h' => ~ reached date u h') skipped
      /\ reached date u h
      /\ first_reached hours date u
         = Ok (Some {| instant := date * usec_per_day + h * usec_per_hour;
                       utcoffset := 0 |}))
  \/ (Forall (fun h' => ~ reached date u h') hours
      /\ first_reached hours date u = Ok None).
Proof.
  induction 1 as [|h tl Hh Htl IH].
  - right. split; [constructor | reflexivity].
  - cbn [first_reached]. rewrite (utc_datetime_valid date Hh).
    cbn [rbind]. unfold geb. cbn [instant].
    destruct (date * usec_per_day + h * usec_per_hour <=? instant u) eqn:E.
    + apply Z.leb_le in E. left. exists h, [], tl.
      repeat split; [constructor | exact E].
    + apply Z.leb_gt in E.
      destruct IH as [(h' & sk & rest & -> & Hsk & Hr & Heq) | [Hnone Heq]].
      * left. exists h', (h :: sk), rest. repeat split; try assumption.
        constructor; [unfold reached; lia | exact Hsk].
      * right. split; [|exact Heq].
        constructor; [unfold reached; lia | exact Hnone].
Qed.

(** [required] returns, and what it returns is a cadence instant that is
    not after the cutoff. *)
Lemma required_sound (c : ModelClass) (T : datetime) :
  INIT_HOURS c <> [] -> valid_hours c ->
  exists b,
    required c T = Ok (mk_run c (Some b))
    /\ cadence_instant c b
    /\ instant b <= instant (cutoff c T).
Proof.
  intros Hne Hv. unfold required.
  pose proof (valid_sorted_hours Hv) as Hvs.
  destruct (first_reached_spec (date_of T) (cutoff c T) Hvs)
    as [(h & sk & rest & Hsplit & _ & Hr & ->) | [_ ->]]; cbn [rbind].
  - eexists. split; [reflexivity|]. split; [|exact Hr].
    split; [reflexivity|]. exists (date_of T), h. split; [|reflexivity].
    apply In_sort_reverse. rewrite Hsplit. apply in_or_app. right. now left.
  - destruct (sort_reverse (INIT_HOURS c)) as [|h0 tl] eqn:Hs.
    + now apply sort_reverse_nil in Hs.
    + assert (Hh0 : 0 <= h0 < 24) by now inversion Hvs.
      rewrite (utc_datetime_valid _ Hh0). cbn [rbind].
      eexists. split; [reflexivity|]. split.
      * split; [reflexivity|]. eexists _, h0. split; [|reflexivity].
        apply In_sort_reverse. rewrite Hs. now left.
      * cbn [instant]. unfold_time.
        replace (1 * 86400000000 + 0 * 3600000000 + 0 * (60 * usec_per_second))
          with 86400000000 by (unfold usec_per_second; lia).
        rewrite Z.add_0_r, day_before.
        pose proof (day_floor (instant T - EXPECTED c - WARNING_AFTER c)).
        lia.
Qed.

Lemma sorted_skipped_ge (skipped rest : list Z) (h x : Z) :
  StronglySorted Z.ge (skipped ++ h :: rest) ->
  In x (skipped ++ h :: rest) -> In x skipped \/ x <= h.
Proof.
  induction skipped as [|y tl IH]; cbn; intros Hs Hin.
  - right. inversion Hs as [|? ? _ Hall]; subst.
    destruct Hin as [->|Hin]; [lia|].
    rewrite Forall_forall in Hall. specialize (Hall _ Hin). lia.
  - inversion Hs as [|? ? Hs' _]; subst.
    destruct Hin as [->|Hin]; [left; now left|].
    destruct (IH Hs' Hin); [left; now right | now right].
Qed.

(** X2.  Where the cutoff falls on the calendar day of the instant given,
    [required] does return the latest cadence instant. *)
Lemma required_latest_same_day (c : ModelClass) (T : datetime) :
  INIT_HOURS c <> [] -> valid_hours c ->
  date_of T = date_of (cutoff c T) ->
  exists b, required c T = Ok (mk_run c (Some b)) /\ latest_required c T b.
Proof.
  intros Hne Hv Hday.
  destruct (required_sound T Hne Hv) as (b & Hreq & Hcad & Hle).
  exists b. split; [exact Hreq|]. split; [exact Hcad|]. split; [exact Hle|].
  intros t (d' & h' & Hin' & ->) Ht.
  pose proof (valid_sorted_hours Hv) as Hvs.
  pose proof (sort_reverse_sorted (INIT_HOURS c)) as Hsorted.
  assert (Hh' : 0 <= h' < 24).
  { unfold valid_hours in Hv. rewrite Forall_forall in Hv. now apply Hv. }
  apply In_sort_reverse in Hin'.
  assert (Hcut : date_of T * 86400000000 <= instant (cutoff c T)
                 < date_of T * 86400000000 + 86400000000).
  { rewrite Hday. unfold date_of at 1 2. rewrite usec_per_day_eq.
    replace (utcoffset (cutoff c T)) with 0 by reflexivity.
    rewrite Z.add_0_r. apply day_floor. }
  rewrite usec_per_day_eq, usec_per_hour_eq in Ht.
  assert (Hd' : d' <= date_of T) by nia.
  unfold required in Hreq.
  destruct (first_reached_spec (date_of T) (cutoff c T) Hvs)
    as [(h & sk & rest & Hsplit & Hsk & Hr & Heq) | [Hnone Heq]];
    rewrite Heq in Hreq; cbn [rbind] in Hreq.
  - injection Hreq as <-. cbn [instant].
    rewrite usec_per_day_eq, usec_per_hour_eq.
    assert (Hh : 0 <= h < 24).
    { rewrite Forall_forall in Hvs. apply Hvs. rewrite Hsplit.
      apply in_or_app. right. now left. }
    destruct (Z.eq_dec d' (date_of T)) as [->|Hneq]; [|nia].
    rewrite Hsplit in Hsorted, Hin'.
    destruct (@sorted_skipped_ge _ _ _ _ Hsorted Hin') as [Hskip|Hle']; [|lia].
    rewrite Forall_forall in Hsk. exfalso. apply (Hsk _ Hskip).
    unfold reached. rewrite usec_per_day_eq, usec_per_hour_eq. exact Ht.
  - destruct (sort_reverse (INIT_HOURS c)) as [|h0 tl] eqn:Hs;
      [discriminate|].
    assert (Hh0 : 0 <= h0 < 24) by now inversion Hvs.
    rewrite (utc_datetime_valid _ Hh0) in Hreq. cbn [rbind] in Hreq.
    injection Hreq as <-. cbn [instant].
    assert (Hy : date_of (sub (cutoff c T) (mk_timedelta 1 0 0))
                 = date_of T - 1).
    { rewrite Hday. unfold_time.
      replace (1 * 86400000000 + 0 * 3600000000 + 0 * (60 * usec_per_second))
        with 86400000000 by (unfold usec_per_second; lia).
      rewrite !Z.add_0_r. apply day_before. }
    rewrite Hy, usec_per_day_eq, usec_per_hour_eq.
    destruct (Z.eq_dec d' (date_of T)) as [->|Hneq].
    + rewrite Forall_forall in Hnone. exfalso. apply (Hnone _ Hin').
      unfold reached. rewrite usec_per_day_eq, usec_per_hour_eq. exact Ht.
    + assert (h' <= h0).
      { destruct Hin' as [->|Hin']; [lia|].
        inversion Hsorted as [|? ? _ Hall]; subst.
        rewrite Forall_forall in Hall. specialize (Hall _ Hin'). lia. }
      nia.
Qed.

(** The monitored classes (and every class with hour 0 in its cadence)
    miss the latest cadence instant whenever the cutoff falls on the day
    before the day of the UTC instant given. *)
Lemma required_not_latest_day_before (c : ModelClass) (T b : datetime) :
  valid_hours c -> In 0 (INIT_HOURS c) ->
  utcoffset T = 0 ->
  date_of (cutoff c T) < date_of T ->
  required c T = Ok (mk_run c (Some b)) ->
  ~ latest_required c T b.
Proof.
  intros Hv H0 Hutc Hday Hreq (_ & _ & Hmax).
  pose proof (valid_sorted_hours Hv) as Hvs.
  assert (Hcut : date_of (cutoff c T) * 86400000000 <= instant (cutoff c T)).
  { unfold date_of. rewrite usec_per_day_eq.
    replace (utcoffset (cutoff c T)) with 0 by reflexivity.
    rewrite Z.add_0_r. apply day_floor. }
  assert (HT : instant (cutoff c T) < date_of T * 86400000000).
  { assert (date_of (cutoff c T) + 1 <= date_of T) by lia.
    pose proof (day_floor (instant (cutoff c T))) as Hf.
    unfold date_of in H at 1. rewrite usec_per_day_eq in H.
    replace (utcoffset (cutoff c T)) with 0 in H by reflexivity.
    rewrite Z.add_0_r in H. nia. }
  specialize (Hmax (date_of (cutoff c T) * usec_per_day + 0 * usec_per_hour)).
  rewrite usec_per_day_eq, usec_per_hour_eq in Hmax.
  assert (Hb : instant b < date_of (cutoff c T) * 86400000000).
  { unfold required in Hreq.
    destruct (first_reached_spec (date_of T) (cutoff c T) Hvs)
      as [(h & sk & rest & Hsplit & Hsk & Hr & Heq) | [Hnone Heq]];
      rewrite Heq in Hreq; cbn [rbind] in Hreq.
    - exfalso. unfold reached in Hr.
      rewrite usec_per_day_eq, usec_per_hour_eq in Hr.
      assert (0 <= h < 24).
      { rewrite Forall_forall in Hvs. apply Hvs. rewrite Hsplit.
        apply in_or_app. right. now left. }
      lia.
    - destruct (sort_reverse (INIT_HOURS c)) as [|h0 tl] eqn:Hs;
        [discriminate|].
      assert (Hh0 : 0 <= h0 < 24) by now inversion Hvs.
      rewrite (utc_datetime_valid _ Hh0) in Hreq. cbn [rbind] in Hreq.
      injection Hreq as <-. cbn [instant].
      assert (Hy : date_of (sub (cutoff c T) (mk_timedelta 1 0 0))
                   = date_of (cutoff c T) - 1).
      { unfold_time.
        replace (1 * 86400000000 + 0 * 3600000000
                 + 0 * (60 * usec_per_second))
          with 86400000000 by (unfold usec_per_second; lia).
        rewrite !Z.add_0_r. apply day_before. }
      rewrite Hy, usec_per_day_eq, usec_per_hour_eq. lia. }
  assert (date_of (cutoff c T) * 86400000000 + 0 * 3600000000 <= instant b).
  { apply Hmax; [|lia]. exists (date_of (cutoff c T)), 0.
    split; [exact H0|]. now rewrite usec_per_day_eq, usec_per_hour_eq. }
  lia.
Qed.

Lemma monitored_classes_wellformed :
  Forall (fun c => INIT_HOURS c <> [] /\ valid_hours c
                   /\ In 0 (INIT_HOURS c)
                   /\ 0 < EXPECTED c + WARNING_AFTER c)
         (ModelRun_ :: models_of_main).
Proof.
  repeat constructor; try discriminate; cbn; try lia; auto 30.
Qed.

(** C3 (fails on the code).  [ModelRun.required] is claimed to return the
    latest cadence instant not after [T - EXPECTED - WARNING_AFTER], also
    when that cutoff falls on the previous calendar day.  For [AAdet] at
    1970-01-02T02:00Z the cutoff is 1970-01-01T22:15Z; the code returns
    1969-12-31T18:00Z, although 1970-01-01T18:00Z is a later cadence
    instant that is not after the cutoff. *)
Theorem required_not_latest_after_midnight :
  required AAdet (utc 1970 1 2 2 0)
  = Ok (mk_run AAdet (Some (utc 1969 12 31 18 0)))
  /\ cutoff AAdet (utc 1970 1 2 2 0) = utc 1970 1 1 22 15
  /\ cadence_instant AAdet (utc 1970 1 1 18 0)
  /\ instant (utc 1970 1 1 18 0) <= instant (cutoff AAdet (utc 1970 1 2 2 0))
  /\ instant (utc 1969 12 31 18 0) < instant (utc 1970 1 1 18 0)
  /\ ~ latest_required AAdet (utc 1970 1 2 2 0) (utc 1969 12 31 18 0).
Proof.
  split; [reflexivity|]. split; [reflexivity|].
  assert (Hc : cadence_instant AAdet (utc 1970 1 1 18 0)).
  { split; [reflexivity|]. exists 0, 18. split; [cbn; auto | reflexivity]. }
  split; [exact Hc|]. split; [vm_compute; intros; discriminate|].
  split; [reflexivity|].
  intros (_ & _ & Hmax).
  specialize (Hmax (instant (utc 1970 1 1 18 0)) (proj2 Hc)).
  vm_compute in Hmax. apply Hmax; [intros; discriminate | reflexivity].
Qed.

(** C4 (fails on the code).  For [MEPSdet] (cadence every 3 hours,
    EXPECTED 3 hours, WARNING_AFTER 15 minutes), [required] at
    1970-01-01T00:00:00Z is claimed to be 1969-12-31T18:00:00Z, the latest
    cadence instant not after the cutoff; the code returns
    1969-12-30T21:00:00Z. *)
Theorem required_MEPSdet_at_epoch :
  INIT_HOURS MEPSdet = [0; 3; 6; 9; 12; 15; 18; 21]
  /\ EXPECTED MEPSdet = mk_timedelta 0 3 0
  /\ WARNING_AFTER MEPSdet = mk_timedelta 0 0 15
  /\ required MEPSdet (utc 1970 1 1 0 0)
     = Ok (mk_run MEPSdet (Some (utc 1969 12 30 21 0)))
  /\ utc 1969 12 30 21 0 <> utc 1969 12 31 18 0
  /\ latest_required MEPSdet (utc 1970 1 1 0 0) (utc 1969 12 31 18 0).
Proof.
  repeat (split; [reflexivity|]). split; [discriminate|].
  split.
  { split; [reflexivity|]. exists (-1), 18. split; [vm_compute; auto 12|reflexivity]. }
  split; [vm_compute; intros; discriminate|].
  intros t (d & h & Hin & ->) Ht.
  assert (Hh : 0 <= h < 24 /\ (h <= 18 \/ h = 21)).
  { vm_compute in Hin. repeat (destruct Hin as [<-|Hin]; [lia|]). destruct Hin. }
  revert Ht. unfold_time. cbn. unfold_time. lia.
Qed.

(** C9.  For every class with a non-empty cadence of hours of the day and
    a positive EXPECTED + WARNING_AFTER, and every aware instant [T],
    [required] returns, [prev] of its result returns, and the bulletin of
    the latter is strictly earlier than the bulletin of the former; and
    [required] at any instant (at a scheduled one in particular) returns
    a bulletin strictly earlier than that instant. *)
Theorem prev_strictly_earlier (c : ModelClass) (T : datetime) :
  INIT_HOURS c <> [] -> valid_hours c ->
  0 < EXPECTED c + WARNING_AFTER c ->
  (exists r br p bp,
      required c T = Ok r /\ bulletin r = Some br
      /\ prev r = Ok p /\ bulletin p = Some bp
      /\ instant bp < instant br)
  /\ (forall b, exists b',
         required c b = Ok (mk_run c (Some b'))
         /\ instant b' < instant b).
Proof.
  intros Hne Hv Hpos.
  assert (Hnow : forall b, exists b',
             required c b = Ok (mk_run c (Some b'))
             /\ instant b' < instant b).
  { intros b. destruct (required_sound b Hne Hv) as (b' & Hreq & _ & Hle).
    exists b'. split; [exact Hreq|]. revert Hle. unfold_time. lia. }
  split; [|exact Hnow].
  destruct (required_sound T Hne Hv) as (br & Hreq & _ & _).
  destruct (Hnow br) as (bp & Hprev & Hlt).
  exists (mk_run c (Some br)), br, (mk_run c (Some bp)), bp.
  repeat split; try assumption.
Qed.

Lemma prev_strictly_earlier_witness :
  (exists r br p bp,
      required MEPSdet (utc 1970 1 1 12 20) = Ok r /\ bulletin r = Some br
      /\ prev r = Ok p /\ bulletin p = Some bp
      /\ instant bp < instant br)
  /\ (forall b, exists b',
         required MEPSdet b = Ok (mk_run MEPSdet (Some b'))
         /\ instant b' < instant b).
Proof.
  apply (@prev_strictly_earlier MEPSdet (utc 1970 1 1 12 20)).
  - discriminate.
  - repeat constructor; lia.
  - reflexivity.
Defined.

(** C10 (fails on the code).  [required] is claimed to depend on the
    instant only.  1969-12-31T20:00-10:00 and 1970-01-01T06:00Z are the
    same instant, yet for [MEPSdet] the code returns 1969-12-31T21:00Z
    for the first and 1970-01-01T00:00Z for the second: the hours are
    projected on the date of the datetime as given, not on its UTC
    date. *)
Theorem required_depends_on_utcoffset :
  astimezone_utc (at_offset 1969 12 31 20 0 (-600)) = utc 1970 1 1 6 0
  /\ required MEPSdet (at_offset 1969 12 31 20 0 (-600))
     = Ok (mk_run MEPSdet (Some (utc 1969 12 31 21 0)))
  /\ required MEPSdet (utc 1970 1 1 6 0)
     = Ok (mk_run MEPSdet (Some (utc 1970 1 1 0 0)))
  /\ utc 1969 12 31 21 0 <> utc 1970 1 1 0 0.
Proof.
  repeat (split; [reflexivity|]). discriminate.
Qed.

(* ================================================================= *)
(** ** The consensus of the nodes *)

Section Consensus.

Lemma dict_get_set_same {V} (d : list (ModelClass * V)) k v :
  dict_get (dict_set d k v) k = Some v.
Proof.
  induction d as [|[k' v'] tl IH]; cbn.
  - destruct (ModelClass_eq_dec k k); [reflexivity | contradiction].
  - destruct (ModelClass_eq_dec k' k) as [->|Hne]; cbn.
    + destruct (ModelClass_eq_dec k k); [reflexivity | contradiction].
    + destruct (ModelClass_eq_dec k' k); [contradiction | exact IH].
Qed.

Lemma dict_get_set_other {V} (d : list (ModelClass * V)) k k' v :
  k' <> k -> dict_get (dict_set d k v) k' = dict_get d k'.
Proof.
  intros Hne. induction d as [|[k0 v0] tl IH]; cbn.
  - destruct (ModelClass_eq_dec k k'); [congruence | reflexivity].
  - destruct (ModelClass_eq_dec k0 k) as [->|Hne0]; cbn.
    + destruct (ModelClass_eq_dec k k'); [congruence|].
      destruct (ModelClass_eq_dec k k'); [congruence | reflexivity].
    + destruct (ModelClass_eq_dec k0 k'); [reflexivity | exact IH].
Qed.

Lemma agree_on_spec (m : ModelClass) (nodes : list ApplicationNode) :
  forall d, stored_bulletins d ->
  exists d',
    agree_on m nodes d = Ok d'
    /\ stored_bulletins d'
    /\ (forall k, k <> m -> dict_get d' k = dict_get d k)
    /\ kept d' m = keep_least (kept d m) (observed nodes m).
Proof.
  induction nodes as [|node tl IH]; intros d Hd.
  - exists d. repeat split; auto.
  - cbn [agree_on observed flat_map]. unfold observation.
    destruct (_bulletin (node_result node) m) as [| |cand] eqn:Hcand;
      cbn [app]; try (apply IH; exact Hd).
    assert (Hobj : exists obj, dict_get (node_result node) m = Some obj
                               /\ bulletin obj = Some cand).
    { unfold _bulletin in Hcand.
      destruct (dict_get (node_result node) m) as [obj|]; [|discriminate].
      exists obj. split; [reflexivity|].
      destruct (bulletin obj); [congruence | discriminate]. }
    destruct Hobj as (obj & Hget & Hb). rewrite Hget.
    assert (Hset : stored_bulletins (dict_set d m obj)).
    { intros k o Hk. destruct (ModelClass_eq_dec k m) as [->|Hne].
      - rewrite dict_get_set_same in Hk. injection Hk as <-. congruence.
      - rewrite dict_get_set_other in Hk by exact Hne. eapply Hd; eassumption. }
    assert (Hkept : kept (dict_set d m obj) m = Some cand).
    { unfold kept, _bulletin. now rewrite dict_get_set_same, Hb. }
    assert (Hstep : forall k0,
               kept d m = k0 ->
               exists d',
                 agree_on m tl (dict_set d m obj) = Ok d'
                 /\ stored_bulletins d'
                 /\ (forall k, k <> m -> dict_get d' k = dict_get d k)
                 /\ kept d' m = keep_least (Some cand) (observed tl m)).
    { intros k0 _. destruct (IH _ Hset) as (d' & Hrun & Hwf & Hother & Hk).
      exists d'. repeat split; try assumption.
      - intros k Hne. rewrite Hother by exact Hne.
        now apply dict_get_set_other.
      - now rewrite Hk, Hkept. }
    unfold kept at 2.
    destruct (_bulletin d m) as [| |b] eqn:Hkeptd; cbn [rbind keep_least].
    + now apply (Hstep None); unfold kept; rewrite Hkeptd.
    + exfalso. unfold _bulletin in Hkeptd.
      destruct (dict_get d m) as [o|] eqn:Ho; [|discriminate].
      destruct (bulletin o) eqn:Hbo; [discriminate|].
      now apply (Hd _ _ Ho).
    + destruct (ltb cand b) eqn:Hlt.
      * now apply (Hstep (Some b)); unfold kept; rewrite Hkeptd.
      * destruct (IH _ Hd) as (d' & Hrun & Hwf & Hother & Hk).
        exists d'. repeat split; try assumption.
        rewrite Hk. unfold kept. now rewrite Hkeptd.
Qed.

Lemma keep_least_some (k : option datetime) (obs : list datetime) :
  (k = None /\ obs = [] /\ keep_least k obs = None)
  \/ exists r, keep_least k obs = Some r
               /\ (k = Some r \/ In r obs)
               /\ (forall b, k = Some b -> instant r <= instant b)
               /\ (forall c, In c obs -> instant r <= instant c).
Proof.
  revert k. induction obs as [|c tl IH]; intros k; cbn [keep_least].
  - destruct k as [b|].
    + right. exists b. repeat split; auto.
      * intros b' [= <-]. lia.
      * intros c [].
    + now left.
  - right.
    destruct (IH (match k with
                  | None => Some c
                  | Some b => if ltb c b then Some c else Some b
                  end)) as [(Hk & _) | (r & Hr & Hin & Hlek & Hle)].
    { destruct k as [b|]; [destruct (ltb c b)|]; discriminate. }
    exists r. split; [exact Hr|].
    destruct k as [b|].
    + destruct (ltb c b) eqn:Hlt; unfold ltb in Hlt.
      * apply Z.ltb_lt in Hlt. specialize (Hlek c eq_refl).
        repeat split.
        -- destruct Hin as [[= <-]|Hin]; right; [now left | now right].
        -- intros b' [= <-]. lia.
        -- intros c' [<-|Hc']; [lia | now apply Hle].
      * apply Z.ltb_ge in Hlt. specialize (Hlek b eq_refl).
        repeat split.
        -- destruct Hin as [[= <-]|Hin]; [now left | right; now right].
        -- intros b' [= <-]. lia.
        -- intros c' [<-|Hc']; [lia | now apply Hle].
    + specialize (Hlek c eq_refl). repeat split.
      * destruct Hin as [[= <-]|Hin]; right; [now left | now right].
      * discriminate.
      * intros c' [<-|Hc']; [lia | now apply Hle].
Qed.

Lemma keep_least_fixed (r : datetime) (obs : list datetime) :
  (forall c, In c obs -> instant r <= instant c) ->
  keep_least (Some r) obs = Some r.
Proof.
  induction obs as [|c tl IH]; intros Hle; cbn [keep_least].
  - reflexivity.
  - assert (Hc : ltb c r = false).
    { unfold ltb. apply Z.ltb_ge. apply Hle. now left. }
    rewrite Hc. apply IH. intros c' Hc'. apply Hle. now right.
Qed.

Lemma keep_least_twice (k : option datetime) (obs : list datetime) :
  keep_least (keep_least k obs) obs = keep_least k obs.
Proof.
  destruct (keep_least_some k obs)
    as [(-> & -> & _) | (r & Hr & _ & _ & Hle)].
  - reflexivity.
  - rewrite Hr. now apply keep_least_fixed.
Qed.

Lemma agree_all_spec (nodes : list ApplicationNode)
    (models : list ModelClass) :
  forall d, stored_bulletins d ->
  exists d',
    agree_all models nodes d = Ok d'
    /\ stored_bulletins d'
    /\ forall m,
        kept d' m = if in_dec ModelClass_eq_dec m models
                    then keep_least (kept d m) (observed nodes m)
                    else kept d m.
Proof.
  induction models as [|model tl IH]; intros d Hd.
  - exists d. repeat split; auto.
  - cbn [agree_all].
    destruct (agree_on_spec model nodes Hd) as (d1 & -> & Hd1 & Hother & Hk1).
    cbn [rbind].
    destruct (IH _ Hd1) as (d' & Hrun & Hd' & Hk).
    exists d'. repeat split; try assumption.
    intros m. rewrite Hk.
    assert (Hm1 : model <> m -> kept d1 m = kept d m).
    { intros Hne. unfold kept, _bulletin. rewrite Hother; congruence. }
    destruct (in_dec ModelClass_eq_dec m (model :: tl)) as [Hin|Hnin];
      destruct (in_dec ModelClass_eq_dec m tl) as [Hin'|Hnin'].
    + destruct (ModelClass_eq_dec model m) as [->|Hne].
      * rewrite Hk1. apply keep_least_twice.
      * now rewrite Hm1.
    + destruct Hin as [->|Hin]; [exact Hk1 | contradiction].
    + exfalso. apply Hnin. now right.
    + apply Hm1. intros ->. apply Hnin. now left.
Qed.

End Consensus.

Lemma keep_least_none (obs : list datetime) :
  (obs = [] /\ keep_least None obs = None)
  \/ exists r, keep_least None obs = Some r /\ least_of r obs.
Proof.
  destruct (keep_least_some None obs)
    as [(_ & Hobs & Hnone) | (r & Hr & Hfrom & _ & Hle)].
  - now left.
  - right. exists r. split; [exact Hr|]. split; [|exact Hle].
    destruct Hfrom as [|]; [discriminate | assumption].
Qed.

(** [extract_most_recent_bulletin] returns, and what it stores for a
    model among [models] is what the inner loop keeps of the
    observations. *)
Lemma extract_spec (models : list ModelClass) (nodes : list ApplicationNode)
    (m : ModelClass) :
  In m models ->
  exists d,
    extract_most_recent_bulletin models nodes = Ok d
    /\ stored_bulletins d
    /\ kept d m = keep_least None (observed nodes m).
Proof.
  intros Hin. unfold extract_most_recent_bulletin.
  assert (Hnil : stored_bulletins []) by (intros k obj; discriminate).
  destruct (agree_all_spec nodes models Hnil) as (d & Hrun & Hd & Hk).
  exists d. repeat split; try assumption.
  rewrite (Hk m).
  destruct (in_dec ModelClass_eq_dec m models); [reflexivity | contradiction].
Qed.

Lemma stored_lookup (d : list (ModelClass * ModelRun)) (m : ModelClass) :
  stored_bulletins d ->
  match kept d m with
  | Some r => exists obj, dict_get d m = Some obj /\ bulletin obj = Some r
  | None => dict_get d m = None
  end.
Proof.
  intros Hd. unfold kept, _bulletin.
  destruct (dict_get d m) as [obj|] eqn:Hget; [|reflexivity].
  destruct (bulletin obj) as [b|] eqn:Hb.
  - now exists obj.
  - exfalso. now apply (Hd _ _ Hget).
Qed.

(** C1 (as amended).  For every model among [models]:
    [extract_most_recent_bulletin] returns; the consensus is absent
    exactly when no node has an observation for the model (the empty node
    set included); otherwise it is the least of the observations of the
    nodes that have one, the nodes without an observation being
    skipped. *)
Theorem consensus_least_observed (models : list ModelClass)
    (nodes : list ApplicationNode) (m : ModelClass) :
  In m models ->
  (observed nodes m = [] /\ consensus models nodes m = Ok IsNone)
  \/ (exists r, consensus models nodes m = Ok (IsDatetime r)
                /\ least_of r (observed nodes m)).
Proof.
  intros Hin. unfold consensus.
  destruct (@extract_spec models nodes m Hin) as (d & -> & Hd & Hk).
  cbn [rbind]. pose proof (stored_lookup m Hd) as Hget. rewrite Hk in Hget.
  destruct (keep_least_none (observed nodes m))
    as [(Hobs & Hnone) | (r & Hr & Hleast)].
  - left. split; [exact Hobs|]. rewrite Hnone in Hget.
    unfold _bulletin. now rewrite Hget.
  - right. exists r. split; [|exact Hleast]. rewrite Hr in Hget.
    destruct Hget as (obj & Hobj & Hb). unfold _bulletin.
    now rewrite Hobj, Hb.
Qed.

Lemma consensus_least_observed_witness :
  (observed silent_node_nodes MEPSdet = []
   /\ consensus [MEPSdet] silent_node_nodes MEPSdet = Ok IsNone)
  \/ (exists r,
         consensus [MEPSdet] silent_node_nodes MEPSdet = Ok (IsDatetime r)
         /\ least_of r (observed silent_node_nodes MEPSdet)).
Proof.
  apply consensus_least_observed. simpl. left. reflexivity.
Defined.

(** C1 (as stated, fails).  With a node that has an observation and a
    node that has none, the consensus is the observation of the first,
    not absent. *)
Lemma consensus_not_fail_safe :
  ~ fail_safe_consensus [MEPSdet]
      [node_of "a" MEPSdet (Some (utc 1970 1 1 9 0));
       node_of "c" MEPSdet None] MEPSdet.
Proof.
  intros [Habsent _].
  assert (H : consensus [MEPSdet]
                [node_of "a" MEPSdet (Some (utc 1970 1 1 9 0));
                 node_of "c" MEPSdet None] MEPSdet = Ok IsNone).
  { apply Habsent. right. exists (node_of "c" MEPSdet None).
    split; [right; left; reflexivity | reflexivity]. }
  vm_compute in H. discriminate H.
Qed.

(* ================================================================= *)
(** ** The body of the loop of [main] *)

Lemma evaluate_model_healthy (now : datetime) (model : ModelClass)
    (most_recent : ModelRun) (s : System) :
  healthy model now most_recent ->
  evaluate_model now model most_recent s
  = resolve model "operational"
      (find_open_incident (page s) model (canonical_title model)) s.
Proof.
  intros (rm & c & r & Hreq & Hr & Hc & Hle).
  unfold evaluate_model, bind, lift, get_page. rewrite Hreq, Hc, Hr.
  unfold geb. replace (instant r <=? instant c) with true
    by (symmetry; now apply Z.leb_le).
  reflexivity.
Qed.

Lemma compose_message_raises (t : template) (model : ModelClass) :
  compose_message t model = Raise AttributeError.
Proof. reflexivity. Qed.

Lemma evaluate_model_behind (now : datetime) (model : ModelClass)
    (most_recent : ModelRun) (s : System) :
  behind model now most_recent ->
  evaluate_model now model most_recent s = (Raise AttributeError, s).
Proof.
  intros (rm & c & r & Hreq & Hr & Hc & Hlt).
  unfold evaluate_model, bind, lift, get_page. rewrite Hreq, Hc, Hr.
  unfold geb. replace (instant r <=? instant c) with false
    by (symmetry; now apply Z.leb_gt).
  reflexivity.
Qed.

(** C2 (as stated, fails).  Two nodes hold the 09:00 bulletin that is
    required at 12:20, the third has no observation: the consensus is
    09:00, and the pass sets the component to [operational] and resolves
    the open incident. *)
Lemma silent_node_reported_healthy :
  ~ silent_node_degrades [MEPSdet] silent_node_nodes MEPSdet
      (utc 1970 1 1 12 20)
      (boot (board_of "degraded_performance"
               [an_incident "inc1" MEPSdet "bcsflmrp5rgk"])).
Proof.
  intros H. destruct H as [H _].
  - exists (node_of "c" MEPSdet None).
    split; [right; right; left; reflexivity | reflexivity].
  - exists (mk_run MEPSdet (Some (utc 1970 1 1 9 0))), (utc 1970 1 1 9 0).
    split; [reflexivity|]. split; [reflexivity|].
    split; [discriminate|].
    intros c [<-|[<-|[]]]; apply Z.le_refl.
  - vm_compute in H. discriminate H.
Qed.

Example silent_node_pass :
  consensus [MEPSdet] silent_node_nodes MEPSdet
  = Ok (IsDatetime (utc 1970 1 1 9 0))
  /\ required MEPSdet (utc 1970 1 1 12 20)
     = Ok (mk_run MEPSdet (Some (utc 1970 1 1 9 0)))
  /\ writes (snd (main false [MEPSdet] silent_node_nodes (utc 1970 1 1 12 20)
                    (boot (board_of "degraded_performance"
                             [an_incident "inc1" MEPSdet "bcsflmrp5rgk"]))))
     = [PATCH_component (Some "bcsflmrp5rgk") "operational";
        PATCH_incident "inc1" resolved_payload].
Proof. repeat split. Qed.

(** C2 (as amended).  When some node has no observation for a model
    while the nodes that have one all hold a bulletin that meets the
    requirement, the missing observation is skipped: the consensus is
    the least of the observations that exist, and the body of the loop
    takes the healthy branch, that is it runs [resolve] with status
    [operational]. *)
Theorem silent_node_skipped (models : list ModelClass)
    (nodes : list ApplicationNode) (m : ModelClass) (now : datetime)
    (required_model : ModelRun) (r : datetime) :
  In m models ->
  (exists n, In n nodes /\ observation n m = None) ->
  observed nodes m <> [] ->
  required m now = Ok required_model ->
  bulletin required_model = Some r ->
  (forall c, In c (observed nodes m) -> instant r <= instant c) ->
  exists d most_recent c,
    extract_most_recent_bulletin models nodes = Ok d
    /\ dict_get d m = Some most_recent
    /\ bulletin most_recent = Some c
    /\ least_of c (observed nodes m)
    /\ forall s,
        evaluate_model now m most_recent s
        = resolve m "operational"
            (find_open_incident (page s) m (canonical_title m)) s.
Proof.
  intros Hin _ Hobs Hreq Hr Hmeets.
  destruct (@extract_spec models nodes m Hin) as (d & Hd & Hstored & Hk).
  pose proof (stored_lookup m Hstored) as Hget. rewrite Hk in Hget.
  destruct (keep_least_none (observed nodes m))
    as [(Hnil & _) | (c & Hc & Hleast)]; [contradiction|].
  rewrite Hc in Hget. destruct Hget as (mr & Hmr & Hb).
  exists d, mr, c. repeat split; try assumption; try apply Hleast.
  intros s. apply evaluate_model_healthy.
  exists required_model, c, r. repeat split; try assumption.
  apply Hmeets. apply Hleast.
Qed.

Lemma silent_node_skipped_witness :
  exists d most_recent c,
    extract_most_recent_bulletin [MEPSdet] silent_node_nodes = Ok d
    /\ dict_get d MEPSdet = Some most_recent
    /\ bulletin most_recent = Some c
    /\ least_of c (observed silent_node_nodes MEPSdet)
    /\ forall s,
        evaluate_model (utc 1970 1 1 12 20) MEPSdet most_recent s
        = resolve MEPSdet "operational"
            (find_open_incident (page s) MEPSdet (canonical_title MEPSdet)) s.
Proof.
  apply (@silent_node_skipped [MEPSdet] silent_node_nodes MEPSdet
           (utc 1970 1 1 12 20)
           (mk_run MEPSdet (Some (utc 1970 1 1 9 0))) (utc 1970 1 1 9 0)).
  - simpl. left. reflexivity.
  - exists (node_of "c" MEPSdet None).
    split; [simpl; right; right; left; reflexivity | reflexivity].
  - vm_compute. discriminate.
  - reflexivity.
  - reflexivity.
  - vm_compute. intros c [<-|[<-|[]]] H; discriminate H.
Defined.

(** C5 (fails on the code).  Whenever the consensus is behind the
    requirement, the body of the loop raises [AttributeError] while it
    composes the message ([model] is the class, which has no
    [bulletin]), before it sends anything to the board: no message is
    produced, and the pass aborts. *)
Theorem degraded_message_raises (now : datetime) (model : ModelClass)
    (most_recent : ModelRun) (s : System) :
  behind model now most_recent ->
  compose_message NotYetPublished model = Raise AttributeError
  /\ evaluate_model now model most_recent s = (Raise AttributeError, s).
Proof.
  intros H. split; [reflexivity | now apply evaluate_model_behind].
Qed.

Lemma degraded_message_raises_witness :
  compose_message NotYetPublished MEPSdet = Raise AttributeError
  /\ evaluate_model (utc 1970 1 1 12 20) MEPSdet
       (mk_run MEPSdet (Some (utc 1970 1 1 6 0)))
       (boot (board_of "operational" []))
     = (Raise AttributeError, boot (board_of "operational" [])).
Proof.
  apply degraded_message_raises.
  exists (mk_run MEPSdet (Some (utc 1970 1 1 9 0))),
         (utc 1970 1 1 6 0), (utc 1970 1 1 9 0).
  repeat split; reflexivity.
Defined.

(** A pass stops at the first model that is behind: the models after it
    are not evaluated. *)
Example pass_aborts :
  let nodes := [mk_node "a"
                  [(MEPSdet, mk_run MEPSdet (Some (utc 1970 1 1 6 0)));
                   (AAdet, mk_run AAdet (Some (utc 1970 1 1 6 0)))]] in
  let s := boot (mk_board
                   [mk_component "bcsflmrp5rgk" "MEPS deterministic"
                      (Some "operational");
                    mk_component "5w7hh6w1f3fr" "Arome Arctic deterministic"
                      (Some "degraded_performance")] [] 0) in
  required AAdet (utc 1970 1 1 12 20)
  = Ok (mk_run AAdet (Some (utc 1970 1 1 6 0)))
  /\ fst (main false [MEPSdet; AAdet] nodes (utc 1970 1 1 12 20) s)
     = Raise AttributeError
  /\ writes (snd (main false [MEPSdet; AAdet] nodes (utc 1970 1 1 12 20) s))
     = [].
Proof. repeat split. Qed.

(** C6 (as stated, fails).  For [MEPSdet] at 12:20 with consensus 06:00 the
    requirement is 09:00, nothing escalates, and the targets are
    [operational] and [none]. *)
Lemma mild_targets_not_degraded :
  ~ mild_is_degraded_minor MEPSdet (utc 1970 1 1 12 20) (utc 1970 1 1 6 0).
Proof.
  intros H.
  specialize (H (mk_run MEPSdet (Some (utc 1970 1 1 9 0)))
                (utc 1970 1 1 9 0) eq_refl eq_refl eq_refl eq_refl).
  vm_compute in H. discriminate H.
Qed.

(** C6 (as amended).  For a class with a non-empty cadence of hours of
    the day, the targets of the degraded branch are defined, and they are
    [operational] and [none] when nothing escalates;
    [degraded_performance] and [minor] are the targets exactly when the
    required bulletin is critically late or the consensus is older than
    the previous scheduled bulletin. *)
Theorem degraded_targets_by_escalation (model : ModelClass)
    (now consensus_ : datetime) :
  INIT_HOURS model <> [] -> valid_hours model ->
  exists r pb,
    required model now = Ok (mk_run model (Some r))
    /\ prev (mk_run model (Some r)) = Ok (mk_run model (Some pb))
    /\ targets model now consensus_
       = Ok (if (instant r + EXPECTED model + ERROR_AFTER model
                 <=? instant now)
                || (instant consensus_ <? instant pb)
             then ("degraded_performance", "minor")
             else ("operational", "none")).
Proof.
  intros Hne Hv.
  destruct (required_sound now Hne Hv) as (r & Hreq & _ & _).
  destruct (required_sound r Hne Hv) as (pb & Hprev & _ & _).
  exists r, pb. split; [exact Hreq|]. split; [exact Hprev|].
  unfold targets, escalate, is_delayed, prev. rewrite Hreq.
  cbn [rbind bulletin cls]. unfold leb, add. cbn [instant].
  destruct (instant r + EXPECTED model + ERROR_AFTER model <=? instant now).
  - reflexivity.
  - rewrite Hprev. cbn [rbind bulletin]. unfold gtb.
    now destruct (instant consensus_ <? instant pb).
Qed.

Lemma degraded_targets_by_escalation_witness :
  exists r pb,
    required MEPSdet (utc 1970 1 1 12 20) = Ok (mk_run MEPSdet (Some r))
    /\ prev (mk_run MEPSdet (Some r)) = Ok (mk_run MEPSdet (Some pb))
    /\ targets MEPSdet (utc 1970 1 1 12 20) (utc 1970 1 1 6 0)
       = Ok (if (instant r + EXPECTED MEPSdet + ERROR_AFTER MEPSdet
                 <=? instant (utc 1970 1 1 12 20))
                || (instant (utc 1970 1 1 6 0) <? instant pb)
             then ("degraded_performance", "minor")
             else ("operational", "none")).
Proof.
  apply degraded_targets_by_escalation.
  - discriminate.
  - repeat constructor; lia.
Defined.

(** [update_incident], called with the message as second positional
    argument, takes it for the status and fails its assertion. *)
Lemma update_incident_message_as_status (incident_id : string)
    (t : template) (n stamp : string) (impact : option string) (s : System) :
  update_incident incident_id (Some (Formatted t n stamp)) None impact s
  = (Raise AssertionError, s).
Proof. reflexivity. Qed.

(** C7 (fails on the code).  An open incident with the canonical title
    exists, the board records [operational], the consensus is two cycles
    behind so that the target is [degraded_performance]: the body raises
    [AttributeError] and nothing is written.  Past the composition of the
    message, lines 116 to 119 would push the status and then fail in
    [update_incident], without updating the incident. *)
Theorem degraded_open_incident_no_write :
  let s0 := boot (board_of "operational"
                    [an_incident "inc1" MEPSdet "bcsflmrp5rgk"]) in
  let s := snd (StatusPage_init false s0) in
  let open := mk_incident "inc1" (canonical_title MEPSdet) ["bcsflmrp5rgk"] in
  find_open_incident (page s) MEPSdet (canonical_title MEPSdet) = Some open
  /\ get_status (page s) (STATUSPAGE_ID MEPSdet) = Some "operational"
  /\ targets MEPSdet (utc 1970 1 1 12 20) (utc 1970 1 1 0 0)
     = Ok ("degraded_performance", "minor")
  /\ evaluate_model (utc 1970 1 1 12 20) MEPSdet
       (mk_run MEPSdet (Some (utc 1970 1 1 0 0))) s
     = (Raise AttributeError, s)
  /\ writes s = []
  /\ (forall t n stamp,
        fst (reconcile_degraded MEPSdet (canonical_title MEPSdet)
               "degraded_performance" "minor" (Formatted t n stamp)
               (Some open) s) = Raise AssertionError
        /\ writes (snd (reconcile_degraded MEPSdet (canonical_title MEPSdet)
                          "degraded_performance" "minor" (Formatted t n stamp)
                          (Some open) s))
           = [PATCH_component (Some "bcsflmrp5rgk") "degraded_performance"]).
Proof.
  cbv zeta. do 5 (split; [reflexivity|]).
  intros t n stamp. split; reflexivity.
Qed.

(* ================================================================= *)
(** ** Two passes on the healthy path *)

Section Dicts.

Variables (A V : Type) (key : A -> string) (val : A -> V).

Lemma str_get_set_same (d : list (string * V)) k v :
  str_get (str_set d k v) k = Some v.
Proof.
  induction d as [|[k' v'] tl IH]; cbn.
  - now rewrite String.eqb_refl.
  - destruct (String.eqb k' k) eqn:E; cbn.
    + now rewrite String.eqb_refl.
    + now rewrite E.
Qed.

Lemma str_get_set_other (d : list (string * V)) k k' v :
  k <> k' -> str_get (str_set d k v) k' = str_get d k'.
Proof.
  intros Hne. induction d as [|[k0 v0] tl IH]; cbn.
  - apply String.eqb_neq in Hne. now rewrite Hne.
  - destruct (String.eqb k0 k) eqn:E; cbn.
    + apply String.eqb_eq in E. subst k0.
      apply String.eqb_neq in Hne. now rewrite Hne.
    + destruct (String.eqb k0 k'); [reflexivity | exact IH].
Qed.

Lemma values_set (d : list (string * V)) k v x :
  In x (map snd (str_set d k v)) -> x = v \/ In x (map snd d).
Proof.
  induction d as [|[k0 v0] tl IH]; cbn.
  - intros [<-|[]]. now left.
  - destruct (String.eqb k0 k); cbn.
    + intros [<-|H]; [now left | right; now right].
    + intros [<-|H]; [right; now left|].
      destruct (IH H); [now left | right; now right].
Qed.

Lemma load_get (l : list A) : forall d k v,
  str_get (fold_left (fun d a => str_set d (key a) (val a)) l d) k = Some v ->
  (exists a, In a l /\ key a = k /\ val a = v) \/ str_get d k = Some v.
Proof.
  induction l as [|a tl IH]; intros d k v H; cbn in H.
  - now right.
  - destruct (IH _ _ _ H) as [(a' & Hin & Hk & Hv) | Hd].
    + left. exists a'. repeat split; try assumption. now right.
    + destruct (string_dec (key a) k) as [Heq|Hne].
      * rewrite Heq, str_get_set_same in Hd. injection Hd as <-.
        left. exists a. repeat split; auto. now left.
      * rewrite str_get_set_other in Hd by exact Hne. now right.
Qed.

Lemma load_defined (l : list A) : forall d k,
  existsb (fun a => String.eqb (key a) k) l = true \/ str_get d k <> None ->
  str_get (fold_left (fun d a => str_set d (key a) (val a)) l d) k <> None.
Proof.
  induction l as [|a tl IH]; intros d k H; cbn in *.
  - destruct H as [H|H]; [discriminate | exact H].
  - apply IH.
    destruct (String.eqb (key a) k) eqn:E.
    + right. apply String.eqb_eq in E. rewrite E, str_get_set_same.
      discriminate.
    + destruct H as [H|H]; [now left|]. right.
      apply String.eqb_neq in E. now rewrite str_get_set_other.
Qed.

Lemma load_values (l : list A) : forall d x,
  In x (map snd (fold_left (fun d a => str_set d (key a) (val a)) l d)) ->
  (exists a, In a l /\ val a = x) \/ In x (map snd d).
Proof.
  induction l as [|a tl IH]; intros d x H; cbn in H.
  - now right.
  - destruct (IH _ _ H) as [(a' & Hin & Hv) | Hd].
    + left. exists a'. split; [now right | exact Hv].
    + destruct (values_set _ _ _ _ Hd) as [->|Hd'].
      * left. exists a. split; [now left | reflexivity].
      * now right.
Qed.

End Dicts.

Lemma init_run (dr : bool) (s : System) :
  StatusPage_init dr s
  = (Ok tt, mk_system (view dr (board s)) (board s)
              ((requests s ++ [GET_components]) ++ [GET_unresolved])).
Proof. destruct s as [p b r]. reflexivity. Qed.

Lemma writes_app (s : System) (p : StatusPage) (b : Board)
    (l : list request) :
  writes (mk_system p b (requests s ++ l)) = writes s ++ filter is_write l.
Proof. unfold writes. cbn. apply filter_app. Qed.

(** The open incident a fresh client finds is an open canonical incident
    of the board. *)
Lemma found_open_incident (dr : bool) (b : Board) (model : ModelClass)
    (inc : Incident) :
  find_open_incident (view dr b) model (canonical_title model) = Some inc ->
  exists i, In i (board_incidents b) /\ unresolved i = true
            /\ canonical model i = true /\ inc_id i = id inc.
Proof.
  intros H. apply find_some in H. destruct H as [Hin Htitle].
  unfold get_incidents_for_component in Hin.
  apply filter_In in Hin. destruct Hin as [Hval Hcomp].
  cbn [view active_incidents] in Hval. unfold view_incidents in Hval.
  apply (load_values (fun i => id (incident_of i)) incident_of) in Hval.
  destruct Hval as [(i & Hi & <-) | []].
  apply filter_In in Hi. destruct Hi as [Hi Hu].
  exists i. repeat split; try assumption.
  unfold canonical. cbn [incident_of title] in Htitle. rewrite Htitle.
  exact Hcomp.
Qed.

Ltac solve_writes :=
  unfold writes; cbn [requests]; rewrite !filter_app; cbn [filter is_write];
  rewrite ?app_nil_r, <- ?app_assoc; reflexivity.

Lemma pass_effect (now : datetime) (model : ModelClass) (mr : ModelRun)
    (s : System) (cid : string) :
  healthy model now mr ->
  STATUSPAGE_ID model = Some cid ->
  has_component cid (board s) = true ->
  let oi := find_open_incident (view false (board s)) model
              (canonical_title model) in
  exists p r,
    pass false now model mr s
    = (Ok tt, mk_system p (after_resolve oi (after_status cid (board s))) r)
    /\ writes (mk_system p (after_resolve oi (after_status cid (board s))) r)
       = writes s
         ++ (if is_operational (get_status (view false (board s)) (Some cid))
             then [] else [PATCH_component (Some cid) "operational"])
         ++ match oi with
            | Some inc => [PATCH_incident (id inc) resolved_payload]
            | None => []
            end.
Proof.
  intros Hh Hcid Hknown. cbv zeta.
  unfold pass, bind. rewrite init_run.
  rewrite (evaluate_model_healthy _ Hh). cbn [page].
  remember (find_open_incident (view false (board s)) model
              (canonical_title model)) as oi eqn:Hfind.
  assert (Hinc : forall inc, oi = Some inc ->
                   has_incident (id inc) (board s) = true).
  { intros inc Hoi. rewrite Hfind in Hoi. apply found_open_incident in Hoi.
    destruct Hoi as (i & Hi & _ & _ & Hid).
    unfold has_incident. apply existsb_exists. exists i.
    split; [exact Hi|]. rewrite Hid. apply String.eqb_refl. }
  unfold resolve, status, bind, get_page, ret. cbn [truthy page].
  rewrite Hcid. unfold after_status.
  change (match get_status (view false (board s)) (Some cid) with
          | Some s0 => (s0 =? "operational")%string
          | None => false
          end)
    with (is_operational (get_status (view false (board s)) (Some cid))).
  destruct (is_operational (get_status (view false (board s)) (Some cid)))
    eqn:Hop.
  - destruct oi as [inc|] eqn:Hoi.
    + unfold resolve_incident, update_incident, bind, ret, check_impact,
        get_page, call.
      cbn. rewrite (Hinc inc eq_refl).
      do 2 eexists. split; [reflexivity | solve_writes].
    + do 2 eexists. split; [reflexivity | solve_writes].
  - unfold set_status, try_pass, update_local_component_status, bind, ret,
      get_page, set_page, call.
    cbn. rewrite Hknown. cbn.
    destruct oi as [inc|] eqn:Hoi.
    + unfold resolve_incident, update_incident, bind, ret, check_impact,
        get_page, call.
      cbn. unfold has_incident in *. cbn. rewrite (Hinc inc eq_refl).
      do 2 eexists. split; [reflexivity | solve_writes].
    + do 2 eexists. split; [reflexivity | solve_writes].
Qed.

Lemma pass_dryrun (now : datetime) (model : ModelClass) (mr : ModelRun)
    (s : System) :
  healthy model now mr ->
  exists s', pass true now model mr s = (Ok tt, s')
             /\ writes s' = writes s.
Proof.
  intros Hh. unfold pass, bind. rewrite init_run.
  rewrite (evaluate_model_healthy _ Hh). cbn [page].
  remember (find_open_incident (view true (board s)) model
              (canonical_title model)) as oi eqn:Hfind.
  clear Hfind.
  unfold resolve, status, bind, get_page, ret. cbn [truthy page].
  destruct (match get_status (view true (board s)) (STATUSPAGE_ID model) with
            | Some s0 => (s0 =? "operational")%string
            | None => false
            end).
  - destruct oi as [inc|].
    + unfold resolve_incident, update_incident, bind, ret, check_impact,
        get_page, call. cbn.
      eexists. split; [reflexivity | solve_writes].
    + eexists. split; [reflexivity | solve_writes].
  - unfold set_status, try_pass, update_local_component_status, bind, ret,
      get_page, set_page, call. cbn.
    destruct oi as [inc|].
    + unfold resolve_incident, update_incident, bind, ret, check_impact,
        get_page, call. cbn.
      eexists. split; [reflexivity | solve_writes].
    + eexists. split; [reflexivity | solve_writes].
Qed.

Lemma after_resolve_components (oi : option Incident) (b : Board) :
  board_components (after_resolve oi b) = board_components b.
Proof. now destruct oi. Qed.

Lemma after_status_incidents (cid : string) (b : Board) :
  board_incidents (after_status cid b) = board_incidents b.
Proof. unfold after_status. now destruct (is_operational _). Qed.

Lemma set_component_id (cid st : string) (c : component) :
  component_id (set_component cid st c) = component_id c.
Proof. unfold set_component. now destruct (String.eqb _ _). Qed.

Lemma has_component_after (cid : string) (oi : option Incident) (b : Board) :
  has_component cid b = true ->
  has_component cid (after_resolve oi (after_status cid b)) = true.
Proof.
  unfold has_component. rewrite after_resolve_components.
  unfold after_status. destruct (is_operational _); [trivial|].
  cbn [board_components]. rewrite !existsb_exists.
  intros (c & Hc & Hid). exists (set_component cid "operational" c).
  split; [now apply in_map | now rewrite set_component_id].
Qed.

Lemma operational_after (cid : string) (oi : option Incident) (b : Board) :
  has_component cid b = true ->
  is_operational
    (get_status (view false (after_resolve oi (after_status cid b)))
       (Some cid)) = true.
Proof.
  intros Hknown.
  assert (Hview : view_components (after_resolve oi (after_status cid b))
                  = view_components (after_status cid b)).
  { unfold view_components. now rewrite after_resolve_components. }
  unfold get_status, view. cbn [components]. rewrite Hview.
  unfold after_status.
  destruct (is_operational (get_status (view false b) (Some cid))) eqn:Hop.
  - exact Hop.
  - unfold view_components. cbn [board_components].
    set (comps := map (set_component cid "operational") (board_components b)).
    assert (Hdef : str_get
                     (fold_left (fun d c => str_set d (component_id c) c)
                                comps []) cid <> None).
    { apply (load_defined component_id (fun c => c)). left.
      unfold has_component in Hknown. rewrite existsb_exists in *.
      destruct Hknown as (c & Hc & Hid).
      exists (set_component cid "operational" c). split.
      - now apply in_map.
      - now rewrite set_component_id. }
    destruct (str_get _ cid) as [c|] eqn:Hget; [|contradiction].
    apply (load_get component_id (fun c => c)) in Hget.
    destruct Hget as [(a & Ha & Hid & <-) | Habs]; [|discriminate].
    apply in_map_iff in Ha. destruct Ha as (c0 & <- & _).
    rewrite set_component_id in Hid. unfold set_component.
    apply String.eqb_eq in Hid. rewrite Hid. reflexivity.
Qed.

Lemma patch_resolved (iid : string) (i : incident_json) :
  unresolved (patch_incident iid resolved_payload i) = true ->
  patch_incident iid resolved_payload i = i /\ inc_id i <> iid.
Proof.
  unfold patch_incident. destruct (String.eqb (inc_id i) iid) eqn:E.
  - cbn. discriminate.
  - intros _. split; [reflexivity | now apply String.eqb_neq].
Qed.

Lemma no_open_incident_after (model : ModelClass) (cid : string)
    (b : Board) :
  single_canonical model b ->
  find_open_incident
    (view false
       (after_resolve
          (find_open_incident (view false b) model (canonical_title model))
          (after_status cid b)))
    model (canonical_title model) = None.
Proof.
  intros Hsingle.
  destruct (find_open_incident (view false b) model (canonical_title model))
    as [inc|] eqn:Hfirst.
  - destruct (find_open_incident
                (view false (after_resolve (Some inc) (after_status cid b)))
                model (canonical_title model))
      as [inc'|] eqn:Hsecond; [|reflexivity].
    exfalso.
    apply found_open_incident in Hfirst.
    destruct Hfirst as (i0 & Hi0 & Hu0 & Hc0 & Hid0).
    apply found_open_incident in Hsecond.
    destruct Hsecond as (i' & Hi' & Hu' & Hc' & _).
    cbn [after_resolve board_incidents] in Hi'.
    rewrite after_status_incidents in Hi'.
    apply in_map_iff in Hi'. destruct Hi' as (i & <- & Hi).
    destruct (patch_resolved _ _ Hu') as [Hsame Hne].
    rewrite Hsame in Hu', Hc'.
    apply Hne. rewrite <- Hid0. now apply Hsingle.
  - cbn [after_resolve].
    assert (Hview : view_incidents (after_status cid b) = view_incidents b).
    { unfold view_incidents. now rewrite after_status_incidents. }
    unfold find_open_incident, get_incidents_for_component, view in *.
    cbn [active_incidents] in *. now rewrite Hview.
Qed.

Lemma healthy_by_evaluation (model : ModelClass) (now r c : datetime)
    (most_recent : ModelRun) :
  required model now = Ok (mk_run model (Some r)) ->
  bulletin most_recent = Some c ->
  (instant r <=? instant c) = true ->
  healthy model now most_recent.
Proof.
  intros Hreq Hc Hle. exists (mk_run model (Some r)), c, r.
  repeat split; try assumption. now apply Z.leb_le.
Qed.

(** C8 (as stated, fails).  Two open incidents carry the canonical title:
    the first pass resolves the first of them, the second pass finds the
    other and resolves it, which is a board write. *)
Lemma second_pass_resolves_duplicate :
  ~ second_pass_silent false (utc 1970 1 1 12 20) (utc 1970 1 1 12 20)
      MEPSdet (mk_run MEPSdet (Some (utc 1970 1 1 9 0)))
      (boot (board_of "degraded_performance"
               [an_incident "inc1" MEPSdet "bcsflmrp5rgk";
                an_incident "inc2" MEPSdet "bcsflmrp5rgk"])).
Proof.
  intros H.
  assert (Hh : healthy MEPSdet (utc 1970 1 1 12 20)
                 (mk_run MEPSdet (Some (utc 1970 1 1 9 0)))).
  { now apply (@healthy_by_evaluation MEPSdet (utc 1970 1 1 12 20)
                  (utc 1970 1 1 9 0) (utc 1970 1 1 9 0)). }
  specialize (H Hh Hh). vm_compute in H. discriminate H.
Qed.

(** C8 (as amended).  On the healthy path, when the board knows the
    component of the model and at most one open incident carries the
    canonical title for it, a first pass returns, a second pass on the
    state the first one left returns, and the second pass sends no write
    to the board: neither a status push nor a resolve. *)
Theorem healthy_second_pass_silent (dryrun_ : bool) (now1 now2 : datetime)
    (model : ModelClass) (most_recent : ModelRun) (s0 : System) :
  known_component model (board s0) ->
  single_canonical model (board s0) ->
  healthy model now1 most_recent -> healthy model now2 most_recent ->
  exists s1 s2,
    pass dryrun_ now1 model most_recent s0 = (Ok tt, s1)
    /\ pass dryrun_ now2 model most_recent s1 = (Ok tt, s2)
    /\ writes s2 = writes s1.
Proof.
  intros (cid & Hcid & Hknown) Hsingle Hh1 Hh2.
  destruct dryrun_.
  - destruct (pass_dryrun s0 Hh1) as (s1 & Hp1 & _).
    destruct (pass_dryrun s1 Hh2) as (s2 & Hp2 & Hw).
    now exists s1, s2.
  - destruct (pass_effect s0 Hh1 Hcid Hknown) as (p1 & r1 & Hp1 & _).
    set (oi := find_open_incident (view false (board s0)) model
                 (canonical_title model)) in *.
    set (b1 := after_resolve oi (after_status cid (board s0))) in *.
    assert (Hknown1 : has_component cid (board (mk_system p1 b1 r1)) = true)
      by (apply has_component_after; exact Hknown).
    destruct (pass_effect (mk_system p1 b1 r1) Hh2 Hcid Hknown1)
      as (p2 & r2 & Hp2 & Hw).
    cbn [board] in Hp2, Hw.
    exists (mk_system p1 b1 r1). eexists. split; [exact Hp1|].
    split; [exact Hp2|]. rewrite Hw.
    assert (Hop : is_operational (get_status (view false b1) (Some cid))
                  = true) by (apply operational_after; exact Hknown).
    assert (Hnone : find_open_incident (view false b1) model
                      (canonical_title model) = None)
      by (apply no_open_incident_after; exact Hsingle).
    rewrite Hop, Hnone. now rewrite !app_nil_r.
Qed.

Lemma healthy_second_pass_silent_witness :
  exists s1 s2,
    pass false (utc 1970 1 1 12 20) MEPSdet
      (mk_run MEPSdet (Some (utc 1970 1 1 9 0)))
      (boot (board_of "degraded_performance"
               [an_incident "inc1" MEPSdet "bcsflmrp5rgk"])) = (Ok tt, s1)
    /\ pass false (utc 1970 1 1 12 30) MEPSdet
         (mk_run MEPSdet (Some (utc 1970 1 1 9 0))) s1 = (Ok tt, s2)
    /\ writes s2 = writes s1.
Proof.
  apply healthy_second_pass_silent.
  - exists "bcsflmrp5rgk". split; reflexivity.
  - intros i j [<-|[]] [<-|[]] _ _ _ _. reflexivity.
  - apply (@healthy_by_evaluation MEPSdet (utc 1970 1 1 12 20)
             (utc 1970 1 1 9 0) (utc 1970 1 1 9 0)); reflexivity.
  - apply (@healthy_by_evaluation MEPSdet (utc 1970 1 1 12 30)
             (utc 1970 1 1 9 0) (utc 1970 1 1 9 0)); reflexivity.
Defined.

(* ================================================================= *)
(** ** Fetching a node *)

Lemma dict_get_map_values {V W} (f : V -> W) (d : list (ModelClass * V)) k :
  dict_get (map (fun kv => (fst kv, f (snd kv))) d) k
  = option_map f (dict_get d k).
Proof.
  induction d as [|[k' v] tl IH]; cbn.
  - reflexivity.
  - destruct (ModelClass_eq_dec k' k); [reflexivity | exact IH].
Qed.

Lemma callback_seen (strptime : string -> string -> option Z)
    (names : list string) :
  forall d,
    callback strptime names d
    = map (fun kv => (fst kv, seen strptime names (snd kv))) d.
Proof.
  unfold callback, seen.
  induction names as [|n tl IH]; intros d; cbn [fold_left].
  - induction d as [|[k v] d' IHd]; cbn; [reflexivity | now rewrite <- IHd].
  - rewrite IH, map_map. reflexivity.
Qed.

Lemma see_spec (strptime : string -> string -> option Z) (n : string)
    (o : ModelRun) :
  cls (see strptime n o) = cls o
  /\ not_after (bulletin o) (bulletin (see strptime n o))
  /\ (forall t, strptime n (PATTERN (cls o)) = Some t ->
        exists b, bulletin (see strptime n o) = Some b /\ t <= instant b)
  /\ (bulletin (see strptime n o) = bulletin o
      \/ exists t, strptime n (PATTERN (cls o)) = Some t
                   /\ bulletin (see strptime n o) = Some (mk_datetime t 0)).
Proof.
  unfold see.
  destruct (strptime n (PATTERN (cls o))) as [t|] eqn:Hp.
  - destruct (bulletin o) as [b|] eqn:Hb.
    + unfold gtb. cbn [instant].
      destruct (instant b <? t) eqn:Hlt.
      * apply Z.ltb_lt in Hlt. cbn [cls bulletin]. repeat split.
        -- cbn. lia.
        -- intros t' [= <-]. eexists. split; [reflexivity | cbn; lia].
        -- right. now exists t.
      * apply Z.ltb_ge in Hlt. repeat split.
        -- rewrite Hb. cbn. lia.
        -- intros t' [= <-]. exists b. now split.
        -- now left.
    + cbn [cls bulletin]. repeat split.
      * intros t' [= <-]. eexists. split; [reflexivity | cbn; lia].
      * right. now exists t.
  - repeat split.
    + destruct (bulletin o); cbn; [lia | exact I].
    + discriminate.
    + now left.
Qed.

Lemma not_after_trans (a b c : option datetime) :
  not_after a b -> not_after b c -> not_after a c.
Proof.
  destruct a, b, c; cbn; try tauto; lia.
Qed.

Lemma not_after_refl (a : option datetime) : not_after a a.
Proof. destruct a; cbn; [lia | exact I]. Qed.

Lemma seen_spec (strptime : string -> string -> option Z)
    (names : list string) :
  forall o,
    cls (seen strptime names o) = cls o
    /\ not_after (bulletin o) (bulletin (seen strptime names o))
    /\ (forall t, In t (parsed strptime (PATTERN (cls o)) names) ->
          exists b, bulletin (seen strptime names o) = Some b
                    /\ t <= instant b)
    /\ (bulletin (seen strptime names o) = bulletin o
        \/ exists t, In t (parsed strptime (PATTERN (cls o)) names)
                     /\ bulletin (seen strptime names o)
                        = Some (mk_datetime t 0)).
Proof.
  unfold seen.
  induction names as [|n tl IH]; intros o; cbn [fold_left parsed flat_map].
  - repeat split; [apply not_after_refl | intros t [] | now left].
  - destruct (see_spec strptime n o) as (Hc & Hmono & Hup & Hfrom).
    destruct (IH (see strptime n o)) as (Hc' & Hmono' & Hup' & Hfrom').
    rewrite Hc in Hc', Hup', Hfrom'. fold (parsed strptime (PATTERN (cls o)) tl).
    repeat split.
    + exact Hc'.
    + eapply not_after_trans; eassumption.
    + intros t Hin. apply in_app_or in Hin. destruct Hin as [Hin|Hin].
      * destruct (strptime n (PATTERN (cls o))) as [t0|] eqn:Hp;
          [|destruct Hin].
        destruct Hin as [<-|[]].
        destruct (Hup _ eq_refl) as (b & Hb & Hle).
        rewrite Hb in Hmono'.
        destruct (bulletin (fold_left _ tl (see strptime n o))) as [b'|];
          [|destruct Hmono'].
        exists b'. split; [reflexivity | cbn in Hmono'; lia].
      * now apply Hup'.
    + destruct Hfrom' as [Heq | (t & Hin & Heq)].
      * rewrite Heq. destruct Hfrom as [Heq0 | (t & Hp & Heq0)].
        -- now left.
        -- right. exists t. split; [|exact Heq0].
           apply in_or_app. left. rewrite Hp. now left.
      * right. exists t. split; [|exact Heq]. apply in_or_app. now right.
Qed.

Lemma callback_keeps (strptime : string -> string -> option Z)
    (names : list string) (result_ : list (ModelClass * ModelRun))
    (k : ModelClass) :
  match dict_get result_ k with
  | None => dict_get (callback strptime names result_) k = None
  | Some o =>
      exists o',
        dict_get (callback strptime names result_) k = Some o'
        /\ cls o' = cls o
        /\ not_after (bulletin o) (bulletin o')
  end.
Proof.
  rewrite callback_seen, dict_get_map_values.
  destruct (dict_get result_ k) as [o|]; cbn [option_map]; [|reflexivity].
  exists (seen strptime names o). split; [reflexivity|].
  destruct (seen_spec strptime names o) as (Hc & Hm & _). now split.
Qed.

(** X20.  [__callback] stores, for every instance of the node, the most recent
    bulletin among the one it held and those the names of the catalog
    give for its pattern: the class is kept, the bulletin never moves
    back, it is not below any bulletin the catalog holds, and it is the
    old one or one of the catalog, in UTC. *)
Theorem callback_most_recent (strptime : string -> string -> option Z)
    (names : list string) (result_ : list (ModelClass * ModelRun))
    (k : ModelClass) :
  match dict_get result_ k with
  | None => dict_get (callback strptime names result_) k = None
  | Some o =>
      exists o',
        dict_get (callback strptime names result_) k = Some o'
        /\ cls o' = cls o
        /\ not_after (bulletin o) (bulletin o')
        /\ (forall t, In t (parsed strptime (PATTERN (cls o)) names) ->
              exists b, bulletin o' = Some b /\ t <= instant b)
        /\ (bulletin o' = bulletin o
            \/ exists t, In t (parsed strptime (PATTERN (cls o)) names)
                         /\ bulletin o' = Some (mk_datetime t 0))
  end.
Proof.
  rewrite callback_seen, dict_get_map_values.
  destruct (dict_get result_ k) as [o|]; cbn [option_map]; [|reflexivity].
  exists (seen strptime names o). split; [reflexivity|].
  apply seen_spec.
Qed.

Lemma existsb_eqb_In (u : string) (l : list string) :
  existsb (String.eqb u) l = true <-> In u l.
Proof.
  rewrite existsb_exists. split.
  - intros (x & Hin & Heq). apply String.eqb_eq in Heq. now subst.
  - intros Hin. exists u. split; [exact Hin | apply String.eqb_refl].
Qed.

Lemma fetch_loop_spec (web : string -> result (list string))
    (strptime : string -> string -> option Z) (keys : list ModelClass) :
  forall result_ urls r result' urls',
    fetch_loop web strptime keys result_ urls = (r, (result', urls')) ->
    (exists added,
        urls' = urls ++ added /\ NoDup added
        /\ forall u, In u added -> ~ In u urls)
    /\ forall k,
        match dict_get result_ k with
        | None => dict_get result' k = None
        | Some o =>
            exists o', dict_get result' k = Some o'
                       /\ cls o' = cls o
                       /\ not_after (bulletin o) (bulletin o')
        end.
Proof.
  induction keys as [|k0 tl IH]; intros result_ urls r result' urls' Hrun;
    cbn [fetch_loop] in Hrun.
  - injection Hrun as <- <- <-. split.
    + exists []. rewrite app_nil_r. repeat split; [constructor | intros u []].
    + intros k. destruct (dict_get result_ k) as [o|]; [|reflexivity].
      exists o. repeat split. apply not_after_refl.
  - assert (Hsame : forall k,
               match dict_get result_ k with
               | None => dict_get result_ k = None
               | Some o =>
                   exists o', dict_get result_ k = Some o'
                              /\ cls o' = cls o
                              /\ not_after (bulletin o) (bulletin o')
               end).
    { intros k. destruct (dict_get result_ k) as [o|]; [|reflexivity].
      exists o. repeat split. apply not_after_refl. }
    destruct (dict_get result_ k0) as [model|] eqn:Hget.
    2:{ injection Hrun as <- <- <-. split; [|exact Hsame].
        exists []. rewrite app_nil_r.
        repeat split; [constructor | intros u []]. }
    destruct (existsb (String.eqb (URL (cls model))) urls) eqn:Hseen.
    + now apply IH in Hrun.
    + assert (Hnew : ~ In (URL (cls model)) urls).
      { intros Hin. apply existsb_eqb_In in Hin. congruence. }
      destruct (web (URL (cls model))) as [names|e].
      * apply IH in Hrun. destruct Hrun as [(added & -> & Hnd & Hfresh) Hmono].
        split.
        -- exists (URL (cls model) :: added). rewrite <- app_assoc.
           split; [reflexivity|]. split.
           ++ constructor; [|exact Hnd]. intros Hin.
              apply (Hfresh _ Hin). apply in_or_app. right. now left.
           ++ intros u [<-|Hin]; [exact Hnew|]. intros Hu.
              apply (Hfresh _ Hin). apply in_or_app. now left.
        -- intros k. specialize (Hmono k).
           pose proof (callback_keeps strptime names result_ k) as Hcb.
           destruct (dict_get result_ k) as [o|].
           ++ destruct Hcb as (o1 & Ho1 & Hc1 & Hm1).
              rewrite Ho1 in Hmono.
              destruct Hmono as (o' & Ho' & Hc' & Hm').
              exists o'. split; [exact Ho'|]. split; [congruence|].
              eapply not_after_trans; eassumption.
           ++ now rewrite Hcb in Hmono.
      * injection Hrun as <- <- <-. split; [|exact Hsame].
        exists [URL (cls model)]. repeat split.
        -- repeat constructor. intros [].
        -- intros u [<-|[]]. exact Hnew.
Qed.

(** X21.  [fetch] requests no URL twice and no URL the node has fetched
    before, whether it returns or raises. *)
Theorem fetch_each_url_once (web : string -> result (list string))
    (strptime : string -> string -> option Z) (node : ApplicationNode)
    (urls : list string) :
  exists added,
    snd (snd (fetch web strptime node urls)) = urls ++ added
    /\ NoDup added
    /\ forall u, In u added -> ~ In u urls.
Proof.
  unfold fetch.
  destruct (fetch_loop web strptime (map fst (node_result node))
              (node_result node) urls) as [r [result' urls']] eqn:Hrun.
  apply fetch_loop_spec in Hrun. exact (proj1 Hrun).
Qed.

(** X22.  [fetch] keeps the models of the node and never moves a bulletin back,
    whether it returns or raises. *)
Theorem fetch_never_moves_back (web : string -> result (list string))
    (strptime : string -> string -> option Z) (node : ApplicationNode)
    (urls : list string) (k : ModelClass) :
  match dict_get (node_result node) k with
  | None => dict_get (fst (snd (fetch web strptime node urls))) k = None
  | Some o =>
      exists o',
        dict_get (fst (snd (fetch web strptime node urls))) k = Some o'
        /\ cls o' = cls o
        /\ not_after (bulletin o) (bulletin o')
  end.
Proof.
  unfold fetch.
  destruct (fetch_loop web strptime (map fst (node_result node))
              (node_result node) urls) as [r [result' urls']] eqn:Hrun.
  apply fetch_loop_spec in Hrun. exact (proj2 Hrun k).
Qed.

Lemma init_get (models : list ModelClass) :
  forall d0 k,
    dict_get (fold_left (fun d model => dict_set d model (new_run model))
                        models d0) k
    = if in_dec ModelClass_eq_dec k models then Some (new_run k)
      else dict_get d0 k.
Proof.
  induction models as [|m tl IH]; intros d0 k; cbn [fold_left].
  - reflexivity.
  - rewrite IH.
    destruct (in_dec ModelClass_eq_dec k tl) as [Hin|Hnin];
      destruct (in_dec ModelClass_eq_dec k (m :: tl)) as [Hin'|Hnin'];
      try reflexivity.
    + exfalso. apply Hnin'. now right.
    + destruct Hin' as [->|Hin']; [|contradiction].
      apply dict_get_set_same.
    + apply dict_get_set_other. intros ->. apply Hnin'. now left.
Qed.

Lemma init_first_key (models : list ModelClass) :
  forall k v d,
    exists tl,
      map fst (fold_left (fun d model => dict_set d model (new_run model))
                         models ((k, v) :: d)) = k :: tl.
Proof.
  induction models as [|m rest IH]; intros k v d; cbn [fold_left].
  - now exists (map fst d).
  - cbn [dict_set]. destruct (ModelClass_eq_dec k m) as [->|Hne]; apply IH.
Qed.

Lemma init_lookup (models : list ModelClass) (name_ : string)
    (m : ModelClass) :
  dict_get (node_result (ApplicationNode_init models name_)) m
  = if in_dec ModelClass_eq_dec m models then Some (new_run m) else None.
Proof. unfold ApplicationNode_init. cbn [node_result]. apply init_get. Qed.

Lemma init_observation (models : list ModelClass) (name_ : string)
    (m : ModelClass) :
  observation (ApplicationNode_init models name_) m = None.
Proof.
  unfold observation, _bulletin. rewrite init_lookup.
  now destruct (in_dec ModelClass_eq_dec m models).
Qed.

(** X19.  A node that [ApplicationNode.__init__] has just built holds one
    instance for each model class it was given and none for any other,
    and no instance has a bulletin: the node has no observation. *)
Theorem ApplicationNode_init_fresh (models : list ModelClass)
    (name_ : string) (m : ModelClass) :
  dict_get (node_result (ApplicationNode_init models name_)) m
  = (if in_dec ModelClass_eq_dec m models then Some (new_run m) else None)
  /\ observation (ApplicationNode_init models name_) m = None.
Proof.
  split; [apply init_lookup | apply init_observation].
Qed.

(** X23.  When the first request of a node that has just been built fails,
    [fetch] raises at once: only that URL has been asked for, and the
    node is left without any observation. *)
Theorem fetch_unreachable_node (web : string -> result (list string))
    (strptime : string -> string -> option Z) (m : ModelClass)
    (rest : list ModelClass) (name_ : string) (e : exn) :
  web (URL m) = Raise e ->
  fetch web strptime (ApplicationNode_init (m :: rest) name_) []
  = (Raise e,
     (node_result (ApplicationNode_init (m :: rest) name_), [URL m]))
  /\ forall k,
      observation
        (mk_node name_
           (fst (snd (fetch web strptime
                        (ApplicationNode_init (m :: rest) name_) []))))
        k = None.
Proof.
  intros Hweb.
  assert (Hrun : fetch web strptime (ApplicationNode_init (m :: rest) name_) []
                 = (Raise e,
                    (node_result (ApplicationNode_init (m :: rest) name_),
                     [URL m]))).
  { unfold fetch.
    assert (Hget : dict_get
                     (node_result (ApplicationNode_init (m :: rest) name_)) m
                   = Some (new_run m)).
    { rewrite init_lookup.
      destruct (in_dec ModelClass_eq_dec m (m :: rest)) as [_|Hn];
        [reflexivity | exfalso; apply Hn; now left]. }
    destruct (init_first_key rest m (new_run m) []) as (tl & Hkeys).
    assert (Hk : map fst (node_result (ApplicationNode_init (m :: rest) name_))
                 = m :: tl) by exact Hkeys.
    rewrite Hk. cbn [fetch_loop]. rewrite Hget.
    cbn [new_run cls existsb app]. now rewrite Hweb. }
  split; [exact Hrun|].
  intros k. rewrite Hrun. cbn [snd fst].
  apply (init_observation (m :: rest) name_ k).
Qed.

(* ================================================================= *)
(** ** More on the schedule model *)

Lemma sort_reverse_head_max (l : list Z) (h0 : Z) (tl : list Z) :
  sort_reverse l = h0 :: tl -> In h0 l /\ forall h, In h l -> h <= h0.
Proof.
  intros Hs. pose proof (sort_reverse_sorted l) as Hsorted.
  rewrite Hs in Hsorted. split.
  - apply In_sort_reverse. rewrite Hs. now left.
  - intros h Hin. apply In_sort_reverse in Hin. rewrite Hs in Hin.
    destruct Hin as [->|Hin]; [lia|].
    inversion Hsorted as [|? ? _ Hall]; subst.
    rewrite Forall_forall in Hall. specialize (Hall _ Hin). lia.
Qed.

(** X1.  For a class with a non-empty cadence of hours of the day, [required]
    returns at every aware instant, and what it returns is a cadence
    instant (one of the hours of [INIT_HOURS], zero minutes and seconds,
    UTC) that is not after [T - EXPECTED - WARNING_AFTER]. *)
Theorem required_cadence_instant_not_after_cutoff (c : ModelClass)
    (T : datetime) :
  INIT_HOURS c <> [] -> valid_hours c ->
  exists b,
    required c T = Ok (mk_run c (Some b))
    /\ utcoffset b = 0
    /\ (exists date h,
           In h (INIT_HOURS c)
           /\ instant b = date * usec_per_day + h * usec_per_hour)
    /\ instant b <= instant T - EXPECTED c - WARNING_AFTER c.
Proof.
  intros Hne Hv.
  destruct (required_sound T Hne Hv) as (b & Hreq & [Hutc Hcad] & Hle).
  exists b. repeat split; assumption.
Qed.

Lemma required_cadence_instant_not_after_cutoff_witness :
  exists b,
    required AAdet (utc 1970 1 2 2 0) = Ok (mk_run AAdet (Some b))
    /\ utcoffset b = 0
    /\ (exists date h,
           In h (INIT_HOURS AAdet)
           /\ instant b = date * usec_per_day + h * usec_per_hour)
    /\ instant b
       <= instant (utc 1970 1 2 2 0) - EXPECTED AAdet - WARNING_AFTER AAdet.
Proof.
  apply required_cadence_instant_not_after_cutoff.
  - discriminate.
  - repeat constructor; lia.
Defined.

(** X3.  When no hour of the cadence, projected on the date of the datetime
    given, has been reached by the cutoff (in particular whenever the
    cutoff falls on an earlier day), [required] returns the last hour
    of the cadence on the day before the day of the cutoff. *)
Theorem required_rollback (c : ModelClass) (T : datetime) :
  INIT_HOURS c <> [] -> valid_hours c ->
  (forall h, In h (INIT_HOURS c) ->
     instant (cutoff c T) < date_of T * usec_per_day + h * usec_per_hour) ->
  exists hmax,
    In hmax (INIT_HOURS c)
    /\ (forall h, In h (INIT_HOURS c) -> h <= hmax)
    /\ required c T
       = Ok (mk_run c
               (Some {| instant := (date_of (cutoff c T) - 1) * usec_per_day
                                   + hmax * usec_per_hour;
                        utcoffset := 0 |})).
Proof.
  intros Hne Hv Hnone. pose proof (valid_sorted_hours Hv) as Hvs.
  unfold required.
  destruct (first_reached_spec (date_of T) (cutoff c T) Hvs)
    as [(h & sk & rest & Hsplit & _ & Hr & _) | [_ ->]]; cbn [rbind].
  - exfalso. assert (Hin : In h (INIT_HOURS c)).
    { apply In_sort_reverse. rewrite Hsplit. apply in_or_app. right.
      now left. }
    specialize (Hnone _ Hin). unfold reached in Hr. lia.
  - destruct (sort_reverse (INIT_HOURS c)) as [|h0 tl] eqn:Hs.
    + now apply sort_reverse_nil in Hs.
    + destruct (sort_reverse_head_max _ Hs) as [Hin Hmax].
      exists h0. split; [exact Hin|]. split; [exact Hmax|].
      assert (Hh0 : 0 <= h0 < 24) by now inversion Hvs.
      rewrite (utc_datetime_valid _ Hh0). cbn [rbind].
      assert (Hy : date_of (sub (cutoff c T) (mk_timedelta 1 0 0))
                   = date_of (cutoff c T) - 1).
      { unfold_time.
        replace (1 * 86400000000 + 0 * 3600000000
                 + 0 * (60 * usec_per_second))
          with 86400000000 by (unfold usec_per_second; lia).
        rewrite !Z.add_0_r. apply day_before. }
      now rewrite Hy.
Qed.

Lemma required_rollback_witness :
  exists hmax,
    In hmax (INIT_HOURS MEPSdet)
    /\ (forall h, In h (INIT_HOURS MEPSdet) -> h <= hmax)
    /\ required MEPSdet (utc 1970 1 1 0 0)
       = Ok (mk_run MEPSdet
               (Some {| instant :=
                          (date_of (cutoff MEPSdet (utc 1970 1 1 0 0)) - 1)
                          * usec_per_day + hmax * usec_per_hour;
                        utcoffset := 0 |})).
Proof.
  apply required_rollback.
  - discriminate.
  - repeat constructor; lia.
  - intros h Hin. vm_compute in Hin.
    repeat (destruct Hin as [<-|Hin]; [reflexivity|]). destruct Hin.
Defined.

(** X4.  The bulletin [required] returns is less than two days older than the
    cutoff, for a datetime whose UTC offset is above minus one day and a
    class whose EXPECTED + WARNING_AFTER is not negative. *)
Theorem required_less_than_two_days_old (c : ModelClass) (T : datetime) :
  INIT_HOURS c <> [] -> valid_hours c ->
  0 <= EXPECTED c + WARNING_AFTER c ->
  - usec_per_day < utcoffset T ->
  exists b,
    required c T = Ok (mk_run c (Some b))
    /\ instant (cutoff c T) - 2 * usec_per_day < instant b
       <= instant (cutoff c T).
Proof.
  intros Hne Hv Hpos Hoff. pose proof (valid_sorted_hours Hv) as Hvs.
  destruct (required_sound T Hne Hv) as (b & Hreq & _ & Hle).
  exists b. split; [exact Hreq|]. split; [|exact Hle].
  unfold required in Hreq.
  destruct (first_reached_spec (date_of T) (cutoff c T) Hvs)
    as [(h & sk & rest & Hsplit & _ & _ & Heq) | [_ Heq]];
    rewrite Heq in Hreq; cbn [rbind] in Hreq.
  - injection Hreq as <-. cbn [instant].
    assert (Hh : 0 <= h < 24).
    { rewrite Forall_forall in Hvs. apply Hvs. rewrite Hsplit.
      apply in_or_app. right. now left. }
    pose proof (day_floor (instant T + utcoffset T)) as Hf.
    unfold_time. lia.
  - destruct (sort_reverse (INIT_HOURS c)) as [|h0 tl] eqn:Hs;
      [discriminate|].
    assert (Hh0 : 0 <= h0 < 24) by now inversion Hvs.
    rewrite (utc_datetime_valid _ Hh0) in Hreq. cbn [rbind] in Hreq.
    injection Hreq as <-. cbn [instant].
    pose proof (day_floor (instant T - EXPECTED c - WARNING_AFTER c)) as Hf.
    unfold_time.
    replace (1 * 86400000000 + 0 * 3600000000 + 0 * (60 * usec_per_second))
      with 86400000000 by (unfold usec_per_second; lia).
    rewrite Z.add_0_r, day_before. lia.
Qed.

Lemma required_less_than_two_days_old_witness :
  exists b,
    required MEPSdet (utc 1970 1 1 0 0) = Ok (mk_run MEPSdet (Some b))
    /\ instant (cutoff MEPSdet (utc 1970 1 1 0 0)) - 2 * usec_per_day
       < instant b <= instant (cutoff MEPSdet (utc 1970 1 1 0 0)).
Proof.
  apply required_less_than_two_days_old.
  - discriminate.
  - repeat constructor; lia.
  - vm_compute. intros; discriminate.
  - reflexivity.
Defined.

(** X5.  A malformed cadence makes [required] raise at every instant:
    [IndexError] when [INIT_HOURS] is empty, [ValueError] when it names
    an hour of 24 or more. *)
Theorem required_malformed_cadence (c : ModelClass) (T : datetime) :
  INIT_HOURS c = [] \/ (exists h, In h (INIT_HOURS c) /\ 24 <= h) ->
  required c T
  = Raise (match INIT_HOURS c with [] => IndexError | _ => ValueError end).
Proof.
  intros [Hnil | (h & Hin & Hbig)].
  - unfold required. now rewrite Hnil.
  - unfold required.
    destruct (sort_reverse (INIT_HOURS c)) as [|h0 tl] eqn:Hs.
    + apply sort_reverse_nil in Hs. rewrite Hs in Hin. destruct Hin.
    + destruct (sort_reverse_head_max _ Hs) as [_ Hmax].
      specialize (Hmax _ Hin). cbn [first_reached]. unfold utc_datetime.
      replace (h0 <? 24) with false by (symmetry; apply Z.ltb_ge; lia).
      rewrite andb_false_r. cbn [rbind].
      destruct (INIT_HOURS c); [destruct Hin | reflexivity].
Qed.

Lemma required_malformed_cadence_witness :
  required hour_24 (utc 1970 1 1 12 20)
  = Raise (match INIT_HOURS hour_24 with
           | [] => IndexError
           | _ => ValueError
           end).
Proof.
  apply required_malformed_cadence.
  right. exists 24. split; [simpl; auto | lia].
Defined.

(** X6.  The condition that escalates the degraded branch is monotone: once
    it holds, it holds at every later instant and for every consensus
    that is not more recent. *)
Theorem escalate_monotone (required_model : ModelRun)
    (now now' consensus_ consensus' : datetime) :
  escalate required_model now consensus_ = Ok true ->
  instant now <= instant now' ->
  instant consensus' <= instant consensus_ ->
  escalate required_model now' consensus' = Ok true.
Proof.
  unfold escalate, is_delayed, prev. intros Hesc Hnow Hcons.
  destruct (bulletin required_model) as [b|]; [|discriminate].
  cbn [rbind] in *. unfold leb, add in *. cbn [instant] in *.
  destruct (instant b + EXPECTED (cls required_model)
            + ERROR_AFTER (cls required_model) <=? instant now) eqn:Hd.
  - apply Z.leb_le in Hd.
    replace (instant b + EXPECTED (cls required_model)
             + ERROR_AFTER (cls required_model) <=? instant now')
      with true by (symmetry; apply Z.leb_le; lia).
    reflexivity.
  - destruct (instant b + EXPECTED (cls required_model)
              + ERROR_AFTER (cls required_model) <=? instant now');
      [reflexivity|].
    destruct (required (cls required_model) b) as [p|e]; [|discriminate].
    cbn [rbind] in *. destruct (bulletin p) as [pb|]; [|discriminate].
    injection Hesc as Hgt. unfold gtb in *. apply Z.ltb_lt in Hgt.
    f_equal. apply Z.ltb_lt. lia.
Qed.

Lemma escalate_monotone_witness :
  escalate (mk_run MEPSdet (Some (utc 1970 1 1 9 0)))
           (utc 1970 1 1 12 30) (utc 1969 12 31 21 0) = Ok true.
Proof.
  apply (@escalate_monotone (mk_run MEPSdet (Some (utc 1970 1 1 9 0)))
           (utc 1970 1 1 12 20) (utc 1970 1 1 12 30)
           (utc 1970 1 1 0 0) (utc 1969 12 31 21 0)).
  - reflexivity.
  - vm_compute. intros; discriminate.
  - vm_compute. intros; discriminate.
Defined.

Lemma required_latest_same_day_witness :
  exists b,
    required MEPSdet (utc 1970 1 1 12 20) = Ok (mk_run MEPSdet (Some b))
    /\ latest_required MEPSdet (utc 1970 1 1 12 20) b.
Proof.
  apply required_latest_same_day.
  - discriminate.
  - repeat constructor; lia.
  - reflexivity.
Defined.

(* ================================================================= *)
(** ** More on the consensus *)

Lemma agree_on_from (m : ModelClass) (nodes : list ApplicationNode) :
  forall d d',
    agree_on m nodes d = Ok d' ->
    forall k obj,
      dict_get d' k = Some obj ->
      dict_get d k = Some obj
      \/ (k = m /\ exists n, In n nodes
                             /\ dict_get (node_result n) m = Some obj).
Proof.
  induction nodes as [|node tl IH]; intros d d' Hrun k obj Hget;
    cbn [agree_on] in Hrun.
  - injection Hrun as <-. now left.
  - assert (Hskip : agree_on m tl d = Ok d' ->
              dict_get d k = Some obj
              \/ (k = m /\ exists n, In n (node :: tl)
                                     /\ dict_get (node_result n) m = Some obj)).
    { intros H. destruct (IH d d' H k obj Hget) as [Hd | (-> & n & Hn & Ho)].
      - now left.
      - right. split; [reflexivity|]. exists n. split; [now right | exact Ho]. }
    destruct (_bulletin (node_result node) m) as [| |cand];
      try (now apply Hskip).
    destruct (match _bulletin d m with
              | IsNone => Ok true
              | IsFalse => Raise TypeError
              | IsDatetime kept_ => Ok (ltb cand kept_)
              end) as [[|]|e]; cbn [rbind] in Hrun;
      [ | now apply Hskip | discriminate].
    destruct (dict_get (node_result node) m) as [o|] eqn:Ho; [|discriminate].
    destruct (IH _ d' Hrun k obj Hget) as [Hd | (-> & n & Hn & Hon)].
    + destruct (ModelClass_eq_dec k m) as [->|Hne].
      * rewrite dict_get_set_same in Hd. injection Hd as <-.
        right. split; [reflexivity|]. exists node. split; [now left | exact Ho].
      * rewrite dict_get_set_other in Hd by exact Hne. now left.
    + right. split; [reflexivity|]. exists n. split; [now right | exact Hon].
Qed.

Lemma agree_all_from (nodes : list ApplicationNode)
    (models : list ModelClass) :
  forall d d',
    agree_all models nodes d = Ok d' ->
    forall k obj,
      dict_get d' k = Some obj ->
      dict_get d k = Some obj
      \/ (In k models /\ exists n, In n nodes
                                   /\ dict_get (node_result n) k = Some obj).
Proof.
  induction models as [|m tl IH]; intros d d' Hrun k obj Hget;
    cbn [agree_all] in Hrun.
  - injection Hrun as <-. now left.
  - destruct (agree_on m nodes d) as [d1|e] eqn:H1; [|discriminate].
    cbn [rbind] in Hrun.
    destruct (IH d1 d' Hrun k obj Hget) as [Hd | (Hin & n & Hn & Ho)].
    + destruct (@agree_on_from m nodes d d1 H1 k obj Hd) as [Hd0 | (-> & n & Hn & Ho)].
      * now left.
      * right. split; [now left|]. now exists n.
    + right. split; [now right|]. now exists n.
Qed.

(** X7.  What [extract_most_recent_bulletin] stores for a model is an object
    of one of the nodes, with its bulletin set, and only the models it
    was given get an entry. *)
Theorem extract_stores_node_objects (models : list ModelClass)
    (nodes : list ApplicationNode) (d : list (ModelClass * ModelRun))
    (m : ModelClass) (obj : ModelRun) :
  extract_most_recent_bulletin models nodes = Ok d ->
  dict_get d m = Some obj ->
  In m models
  /\ (exists n, In n nodes /\ dict_get (node_result n) m = Some obj)
  /\ exists b, bulletin obj = Some b.
Proof.
  intros Hrun Hget.
  assert (Hnil : stored_bulletins []) by (intros k o; discriminate).
  destruct (agree_all_spec nodes models Hnil) as (d' & Hrun' & Hd & _).
  unfold extract_most_recent_bulletin in Hrun. rewrite Hrun in Hrun'.
  injection Hrun' as <-.
  destruct (@agree_all_from nodes models [] d Hrun m obj Hget)
    as [Habs | (Hin & Hn)];
    [discriminate|].
  split; [exact Hin|]. split; [exact Hn|].
  destruct (bulletin obj) as [b|] eqn:Hb.
  - now exists b.
  - exfalso. now apply (Hd _ _ Hget).
Qed.

Lemma extract_stores_node_objects_witness :
  In MEPSdet [MEPSdet]
  /\ (exists n, In n silent_node_nodes
                /\ dict_get (node_result n) MEPSdet
                   = Some (mk_run MEPSdet (Some (utc 1970 1 1 9 0))))
  /\ exists b, bulletin (mk_run MEPSdet (Some (utc 1970 1 1 9 0))) = Some b.
Proof.
  apply (@extract_stores_node_objects [MEPSdet] silent_node_nodes
           [(MEPSdet, mk_run MEPSdet (Some (utc 1970 1 1 9 0)))]);
    reflexivity.
Defined.

Lemma consensus_cases (models : list ModelClass)
    (nodes : list ApplicationNode) (m : ModelClass) :
  In m models ->
  (observed nodes m = [] /\ consensus models nodes m = Ok IsNone)
  \/ (exists r, consensus models nodes m = Ok (IsDatetime r)
                /\ least_of r (observed nodes m)).
Proof.
  intros Hin. unfold consensus.
  destruct (@extract_spec models nodes m Hin) as (d & -> & Hd & Hk).
  cbn [rbind]. pose proof (stored_lookup m Hd) as Hget. rewrite Hk in Hget.
  destruct (keep_least_none (observed nodes m))
    as [(Hobs & Hnone) | (r & Hr & Hleast)].
  - left. split; [exact Hobs|]. rewrite Hnone in Hget.
    unfold _bulletin. now rewrite Hget.
  - right. exists r. split; [|exact Hleast]. rewrite Hr in Hget.
    destruct Hget as (obj & Hobj & Hb). unfold _bulletin.
    now rewrite Hobj, Hb.
Qed.

Lemma observed_permutation (nodes nodes' : list ApplicationNode)
    (m : ModelClass) :
  Permutation nodes nodes' ->
  Permutation (observed nodes m) (observed nodes' m).
Proof. intros H. unfold observed. now apply Permutation_flat_map. Qed.

(** X8.  The consensus does not depend on the order of the nodes: it is absent
    for both orders, or it is the same instant for both. *)
Theorem consensus_order_independent (models : list ModelClass)
    (nodes nodes' : list ApplicationNode) (m : ModelClass) :
  In m models -> Permutation nodes nodes' ->
  (consensus models nodes m = Ok IsNone
   /\ consensus models nodes' m = Ok IsNone)
  \/ (exists r r',
         consensus models nodes m = Ok (IsDatetime r)
         /\ consensus models nodes' m = Ok (IsDatetime r')
         /\ instant r = instant r').
Proof.
  intros Hin Hperm.
  pose proof (observed_permutation m Hperm) as Hobs.
  destruct (@consensus_cases models nodes m Hin)
    as [(Hnil & Hc) | (r & Hc & Hr & Hle)];
    destruct (@consensus_cases models nodes' m Hin)
      as [(Hnil' & Hc') | (r' & Hc' & Hr' & Hle')].
  - now left.
  - exfalso. rewrite Hnil in Hobs. apply Permutation_nil in Hobs.
    rewrite Hobs in Hr'. destruct Hr'.
  - exfalso. rewrite Hnil' in Hobs. apply Permutation_sym in Hobs.
    apply Permutation_nil in Hobs. rewrite Hobs in Hr. destruct Hr.
  - right. exists r, r'. repeat split; try assumption.
    assert (instant r <= instant r').
    { apply Hle. eapply Permutation_in; [apply Permutation_sym|]; eassumption. }
    assert (instant r' <= instant r).
    { apply Hle'. eapply Permutation_in; eassumption. }
    lia.
Qed.

Lemma consensus_order_independent_witness :
  (consensus [MEPSdet]
     [node_of "a" MEPSdet (Some (utc 1970 1 1 9 0));
      node_of "b" MEPSdet (Some (utc 1970 1 1 6 0))] MEPSdet = Ok IsNone
   /\ consensus [MEPSdet]
        [node_of "b" MEPSdet (Some (utc 1970 1 1 6 0));
         node_of "a" MEPSdet (Some (utc 1970 1 1 9 0))] MEPSdet = Ok IsNone)
  \/ (exists r r',
         consensus [MEPSdet]
           [node_of "a" MEPSdet (Some (utc 1970 1 1 9 0));
            node_of "b" MEPSdet (Some (utc 1970 1 1 6 0))] MEPSdet
         = Ok (IsDatetime r)
         /\ consensus [MEPSdet]
              [node_of "b" MEPSdet (Some (utc 1970 1 1 6 0));
               node_of "a" MEPSdet (Some (utc 1970 1 1 9 0))] MEPSdet
            = Ok (IsDatetime r')
         /\ instant r = instant r').
Proof.
  apply consensus_order_independent.
  - simpl. left. reflexivity.
  - apply perm_swap.
Defined.

Lemma consensus_keep_least (models : list ModelClass)
    (nodes : list ApplicationNode) (m : ModelClass) :
  In m models ->
  consensus models nodes m
  = Ok (match keep_least None (observed nodes m) with
        | Some r => IsDatetime r
        | None => IsNone
        end).
Proof.
  intros Hin. unfold consensus.
  destruct (@extract_spec models nodes m Hin) as (d & -> & Hd & Hk).
  cbn [rbind]. pose proof (stored_lookup m Hd) as Hget. rewrite Hk in Hget.
  unfold _bulletin.
  destruct (keep_least None (observed nodes m)) as [r|].
  - destruct Hget as (obj & -> & ->). reflexivity.
  - now rewrite Hget.
Qed.

(** X24.  A node that has no observation for a model does not change the
    consensus for that model, wherever it stands among the nodes. *)
Theorem consensus_ignores_silent_node (models : list ModelClass)
    (before after : list ApplicationNode) (n : ApplicationNode)
    (m : ModelClass) :
  In m models ->
  observation n m = None ->
  consensus models (before ++ n :: after) m
  = consensus models (before ++ after) m.
Proof.
  intros Hin Hsilent. rewrite !consensus_keep_least by exact Hin.
  unfold observed. rewrite !flat_map_app. cbn [flat_map].
  now rewrite Hsilent.
Qed.

Lemma consensus_ignores_silent_node_witness :
  consensus [MEPSdet]
    ([node_of "a" MEPSdet (Some (utc 1970 1 1 9 0))]
     ++ node_of "c" MEPSdet None
        :: [node_of "b" MEPSdet (Some (utc 1970 1 1 6 0))]) MEPSdet
  = consensus [MEPSdet]
      ([node_of "a" MEPSdet (Some (utc 1970 1 1 9 0))]
       ++ [node_of "b" MEPSdet (Some (utc 1970 1 1 6 0))]) MEPSdet.
Proof.
  apply consensus_ignores_silent_node.
  - simpl. left. reflexivity.
  - reflexivity.
Defined.

(* ================================================================= *)
(** ** What the client and [main] send to the board *)

Section Emits.

Context {A B : Type}.

Lemma emits_ret (P : request -> Prop) (a : A) : emits P (ret a).
Proof. intros s. exists []. now rewrite app_nil_r. Qed.

Lemma emits_raise (P : request -> Prop) (e : exn) : emits P (@raise A e).
Proof. intros s. exists []. now rewrite app_nil_r. Qed.

Lemma emits_lift (P : request -> Prop) (r : result A) : emits P (lift r).
Proof. intros s. exists []. now rewrite app_nil_r. Qed.

Lemma emits_bind (P : request -> Prop) (m : M A) (k : A -> M B) :
  emits P m -> (forall a, emits P (k a)) -> emits P (bind m k).
Proof.
  intros Hm Hk s. unfold bind. destruct (Hm s) as (l1 & H1 & HP1).
  destruct (m s) as [[a|e] s1]; cbn [snd] in *.
  - destruct (Hk a s1) as (l2 & H2 & HP2). exists (l1 ++ l2).
    rewrite H2, H1, app_assoc. split; [reflexivity|].
    apply Forall_app. now split.
  - now exists l1.
Qed.

Lemma emits_bind_lift (P : request -> Prop) (r : result A) (k : A -> M B) :
  (forall a, r = Ok a -> emits P (k a)) -> emits P (bind (lift r) k).
Proof.
  intros Hk s. unfold bind, lift. destruct r as [a|e].
  - now apply Hk.
  - exists []. now rewrite app_nil_r.
Qed.

Lemma emits_weaken (P Q : request -> Prop) (m : M A) :
  (forall r, P r -> Q r) -> emits P m -> emits Q m.
Proof.
  intros HPQ Hm s. destruct (Hm s) as (l & Hl & HP). exists l.
  split; [exact Hl|]. eapply Forall_impl; [|exact HP]. exact HPQ.
Qed.

End Emits.

Lemma emits_get_page (P : request -> Prop) : emits P get_page.
Proof. intros s. exists []. now rewrite app_nil_r. Qed.

Lemma emits_set_page (P : request -> Prop) p : emits P (set_page p).
Proof. intros s. exists []. now rewrite app_nil_r. Qed.

Lemma emits_call (P : request -> Prop) (r : request) :
  P r -> emits P (call r).
Proof.
  intros HP s. unfold call. destruct (serve r (board s)) as [resp b'].
  exists [r]. split; [reflexivity | now repeat constructor].
Qed.

Lemma emits_try_pass (P : request -> Prop) (m : M unit) :
  emits P m -> emits P (try_pass m).
Proof. intros Hm s. exact (Hm s). Qed.

Lemma emits_update_components (P : request -> Prop) :
  P GET_components -> emits P update_local_component_status.
Proof.
  intros HP. unfold update_local_component_status.
  apply emits_bind; [now apply emits_call|].
  intros [l|l|]; try apply emits_ret.
  apply emits_bind; [apply emits_get_page | intros p; apply emits_set_page].
Qed.

Lemma emits_update_incidents (P : request -> Prop) :
  P GET_unresolved -> emits P update_local_incident_status.
Proof.
  intros HP. unfold update_local_incident_status.
  apply emits_bind; [now apply emits_call|]. intros data.
  apply emits_bind; [apply emits_get_page | intros p; apply emits_set_page].
Qed.

Lemma existsb_eqb_In' (u : string) (l : list string) :
  existsb (String.eqb u) l = true -> In u l.
Proof. apply existsb_eqb_In. Qed.

Lemma emits_set_status (P : request -> Prop) (cid : option string)
    (st : string) :
  (In st component_statuses -> P (PATCH_component cid st)) ->
  emits P (set_status cid st).
Proof.
  intros HP. unfold set_status.
  destruct (existsb (String.eqb st) _) eqn:Hok; [|apply emits_raise].
  apply existsb_eqb_In' in Hok.
  apply emits_bind; [apply emits_get_page|]. intros p.
  destruct (dryrun p); [apply emits_ret|].
  apply emits_try_pass. apply emits_bind; [|intros; apply emits_ret].
  apply emits_call. now apply HP.
Qed.

Lemma emits_status (P : request -> Prop) (cid : option string)
    (new : option string) :
  P GET_components ->
  (forall st, new = Some st -> In st component_statuses ->
              P (PATCH_component cid st)) ->
  emits P (status cid new).
Proof.
  intros Hget HP. unfold status.
  apply emits_bind.
  - destruct (truthy new); [|apply emits_ret].
    destruct new as [st|]; [|apply emits_ret].
    apply emits_bind.
    + apply emits_set_status. now apply HP.
    + intros _. now apply emits_update_components.
  - intros _. apply emits_bind; [apply emits_get_page|].
    intros p. apply emits_ret.
Qed.

Lemma emits_check_impact (P : request -> Prop) (impact : option string) :
  emits P (check_impact impact).
Proof.
  unfold check_impact. destruct (truthy impact); [|apply emits_ret].
  destruct (match impact with Some i => _ | None => false end);
    [apply emits_ret | apply emits_raise].
Qed.

Lemma check_impact_valid (impact : option string) (s : System) (o : option string) (s' : System) :
  check_impact impact s = (Ok o, s') -> valid_impact o.
Proof.
  unfold check_impact. destruct (truthy impact).
  - destruct impact as [i|]; [|discriminate].
    destruct (existsb (String.eqb i) ["none"; "minor"; "major"]) eqn:Hok;
      [|discriminate].
    intros [= <- _]. now apply existsb_eqb_In in Hok.
  - intros [= <- _]. exact I.
Qed.
Lemma emits_resolve_incident (P : request -> Prop) (iid : string) :
  P (PATCH_incident iid resolved_payload) -> emits P (resolve_incident iid).
Proof.
  intros HP s.
  unfold resolve_incident, update_incident, bind, ret, raise, check_impact,
    get_page, call.
  cbn. destruct (dryrun (page s)).
  - exists []. now rewrite app_nil_r.
  - destruct (has_incident iid (board s)); cbn;
      (exists [PATCH_incident iid resolved_payload];
       split; [reflexivity | now repeat constructor]).
Qed.

Lemma emits_resolve (P : request -> Prop) (model : ModelClass)
    (st : string) (oi : option Incident) :
  P GET_components ->
  (In st component_statuses -> P (PATCH_component (STATUSPAGE_ID model) st)) ->
  (forall inc, oi = Some inc -> P (PATCH_incident (id inc) resolved_payload)) ->
  emits P (resolve model st oi).
Proof.
  intros Hget Hpatch Hinc. unfold resolve.
  apply emits_bind.
  { apply emits_status; [exact Hget | discriminate]. }
  intros current. apply emits_bind.
  - destruct (match current with Some s => _ | None => false end);
      [apply emits_ret|].
    apply emits_bind; [|intros; apply emits_ret].
    apply emits_status; [exact Hget|]. intros st' [= <-]. exact Hpatch.
  - intros _. destruct oi as [inc|]; [|apply emits_ret].
    apply emits_resolve_incident. now apply Hinc.
Qed.

Lemma emits_evaluate_model (now : datetime) (model : ModelClass)
    (most_recent : ModelRun) :
  emits healthy_report (evaluate_model now model most_recent).
Proof.
  unfold evaluate_model.
  apply emits_bind; [apply emits_lift|]. intros required_model.
  apply emits_bind; [apply emits_get_page|]. intros p.
  destruct (bulletin most_recent) as [c|]; [|apply emits_raise].
  destruct (bulletin required_model) as [r|]; [|apply emits_raise].
  destruct (geb c r).
  - apply emits_resolve.
    + now left.
    + intros _. right. left. now eexists.
    + intros inc _. right. right. now eexists.
  - unfold degraded. apply emits_bind_lift. intros message Hm.
    rewrite compose_message_raises in Hm. discriminate Hm.
Qed.

Lemma emits_evaluate_all (now : datetime)
    (d : list (ModelClass * ModelRun)) :
  emits healthy_report (evaluate_all now d).
Proof.
  induction d as [|[model most_recent] tl IH]; cbn [evaluate_all].
  - apply emits_ret.
  - apply emits_bind; [apply emits_evaluate_model | intros _; exact IH].
Qed.

(** X9.  Whatever the nodes hold and whatever the board answers, the writes
    [main] sends are status pushes to [operational] and resolutions of
    incidents: it never creates an incident, never updates one otherwise,
    and never pushes another status. *)
Theorem main_only_reports_healthy (dryrun_ : bool)
    (models : list ModelClass) (nodes : list ApplicationNode)
    (now : datetime) (s : System) :
  exists added,
    requests (snd (main dryrun_ models nodes now s)) = requests s ++ added
    /\ Forall healthy_report added.
Proof.
  revert s. change (emits healthy_report (main dryrun_ models nodes now)).
  unfold main. apply emits_bind; [apply emits_lift|]. intros d.
  apply emits_bind; [|intros _; apply emits_evaluate_all].
  unfold StatusPage_init.
  apply emits_bind; [apply emits_set_page|]. intros _.
  apply emits_bind.
  - apply emits_update_components. now left.
  - intros _. apply emits_update_incidents. now left.
Qed.

(** X11.  Every status [status] sends to the board is one of the four the board
    knows, for the component it was given; called without a new status
    it sends nothing that writes. *)
Theorem status_sends_known_status (cid : option string)
    (new : option string) (s : System) :
  exists added,
    requests (snd (status cid new s)) = requests s ++ added
    /\ Forall (fun r => is_write r = false
                        \/ exists st, new = Some st
                                      /\ r = PATCH_component cid st
                                      /\ In st component_statuses) added.
Proof.
  revert s.
  change (emits (fun r => is_write r = false
                          \/ exists st, new = Some st
                                        /\ r = PATCH_component cid st
                                        /\ In st component_statuses)
                (status cid new)).
  apply emits_status.
  - now left.
  - intros st Hnew Hin. right. now exists st.
Qed.

Lemma literal_in_spec (t : text) (l : list string) :
  literal_in t l = true -> exists w, t = Literal w /\ In w l.
Proof.
  destruct t as [w|]; cbn; [|discriminate].
  intros H. exists w. split; [reflexivity | now apply existsb_eqb_In].
Qed.

Lemma check_impact_run (impact : option string) (s : System) :
  (exists e, check_impact impact s = (Raise e, s))
  \/ exists o, check_impact impact s = (Ok o, s) /\ valid_impact o.
Proof.
  unfold check_impact, ret, raise. destruct (truthy impact).
  - destruct impact as [i|]; [|left; now eexists].
    destruct (existsb (String.eqb i) ["none"; "minor"; "major"]) eqn:Hok.
    + right. exists (Some i). split; [reflexivity|].
      now apply existsb_eqb_In in Hok.
    + left. now eexists.
  - right. exists None. now split.
Qed.

Lemma update_incident_tail (incident_id : string)
    (status_ message : option text) (impact : option string) (s : System) :
  match status_ with
  | Some t => exists w, t = Literal w /\ In w incident_statuses
  | None => True
  end ->
  let m :=
    bind (check_impact impact) (fun impact_override =>
      let payload := mk_update status_ message impact_override in
      if payload_empty payload then ret tt
      else bind get_page (fun p =>
             if dryrun p then ret tt
             else bind (call (PATCH_incident incident_id payload))
                       (fun _ => ret tt))) in
  requests (snd (m s)) = requests s
  \/ exists p,
      requests (snd (m s)) = requests s ++ [PATCH_incident incident_id p]
      /\ u_status p = status_ /\ u_message p = message
      /\ valid_update p.
Proof.
  intros Hvalid m. subst m. unfold bind, get_page, ret, call.
  destruct (check_impact_run impact s) as [(e & ->) | (o & -> & Ho)];
    [now left|].
  cbv zeta. destruct (payload_empty (mk_update status_ message o)) eqn:Hempty;
    [now left|].
  destruct (dryrun (page s)); [now left|].
  right. exists (mk_update status_ message o).
  destruct (serve (PATCH_incident incident_id (mk_update status_ message o))
              (board s)) as [[resp|e] b']; cbn [snd requests];
    (split; [reflexivity|]); repeat split; assumption.
Qed.

(** X12.  [update_incident] sends at most one request, an update of the
    incident it was given whose status, if any, is one of the four
    incident statuses, whose impact, if any, is one of the three impacts,
    and which is not empty. *)
Theorem update_incident_sends_valid (incident_id : string)
    (status_ message : option text) (impact : option string) (s : System) :
  requests (snd (update_incident incident_id status_ message impact s))
  = requests s
  \/ exists p,
      requests (snd (update_incident incident_id status_ message impact s))
      = requests s ++ [PATCH_incident incident_id p]
      /\ u_status p = status_ /\ u_message p = message
      /\ valid_update p.
Proof.
  pose proof (update_incident_tail incident_id status_ message impact s)
    as Htail.
  unfold update_incident.
  destruct status_ as [t|].
  - destruct (literal_in t ["investigating"; "identified"; "monitoring";
                            "resolved"]) eqn:Hl; [|now left].
    apply Htail. now apply literal_in_spec.
  - now apply Htail.
Qed.

(** X13.  [create_incident] sends at most a creation followed by a reading of
    the open incidents; the incident it creates has the title, the
    message and the component it was given, the status [investigating],
    and an impact that is one of the three the board knows, if any. *)
Theorem create_incident_sends_valid (component_id : option string)
    (title_ : string) (message : text) (impact : option string)
    (s : System) :
  requests (snd (create_incident component_id title_ message impact s))
  = requests s
  \/ exists o,
      valid_impact o
      /\ requests (snd (create_incident component_id title_ message impact s))
         = requests s
           ++ [POST_incident
                 (mk_create title_ "investigating" message [component_id] o);
               GET_unresolved].
Proof.
  unfold create_incident, bind, get_page, ret.
  destruct (check_impact_run impact s) as [(e & ->) | (o & -> & Ho)];
    [now left|].
  cbv zeta. destruct (dryrun (page s)); [now left|].
  right. exists o. split; [exact Ho|].
  unfold call, update_local_incident_status, bind, get_page, set_page, call.
  cbn. now rewrite <- app_assoc.
Qed.

Section Dry.

Context {A B : Type}.

Lemma dry_ret (a : A) : dry (ret a).
Proof. intros s Hs. now split. Qed.

Lemma dry_raise (e : exn) : dry (@raise A e).
Proof. intros s Hs. now split. Qed.

Lemma dry_lift (r : result A) : dry (lift r).
Proof. intros s Hs. now split. Qed.

Lemma dry_bind (m : M A) (k : A -> M B) :
  dry m -> (forall a, dry (k a)) -> dry (bind m k).
Proof.
  intros Hm Hk s Hs. unfold bind. destruct (Hm s Hs) as [Hd Hw].
  destruct (m s) as [[a|e] s1]; cbn [snd] in *.
  - destruct (Hk a s1 Hd) as [Hd' Hw']. split; [exact Hd' | congruence].
  - now split.
Qed.

Lemma dry_bind_get_page (k : StatusPage -> M B) :
  (forall p, dryrun p = true -> dry (k p)) -> dry (bind get_page k).
Proof. intros Hk s Hs. unfold bind, get_page. now apply Hk. Qed.

End Dry.

Lemma dry_call (r : request) : is_write r = false -> dry (call r).
Proof.
  intros Hr s Hs. unfold call. destruct (serve r (board s)) as [resp b'].
  cbn [snd page]. split; [exact Hs|].
  unfold writes. cbn [requests]. rewrite filter_app. cbn [filter].
  rewrite Hr. apply app_nil_r.
Qed.

Lemma dry_set_page (p : StatusPage) : dryrun p = true -> dry (set_page p).
Proof. intros Hp s Hs. now split. Qed.

Lemma dry_update_components : dry update_local_component_status.
Proof.
  unfold update_local_component_status.
  apply dry_bind; [now apply dry_call|].
  intros [l|l|]; try apply dry_ret.
  apply dry_bind_get_page. intros p Hp. now apply dry_set_page.
Qed.

Lemma dry_update_incidents : dry update_local_incident_status.
Proof.
  unfold update_local_incident_status.
  apply dry_bind; [now apply dry_call|]. intros data.
  apply dry_bind_get_page. intros p Hp. now apply dry_set_page.
Qed.

Lemma dry_status (cid new : option string) : dry (status cid new).
Proof.
  unfold status. apply dry_bind.
  - destruct (truthy new); [|apply dry_ret].
    destruct new as [st|]; [|apply dry_ret].
    apply dry_bind; [|intros _; apply dry_update_components].
    unfold set_status. destruct (existsb _ _); [|apply dry_raise].
    apply dry_bind_get_page. intros p Hp. rewrite Hp. apply dry_ret.
  - intros _. apply dry_bind_get_page. intros p _. apply dry_ret.
Qed.

Lemma dry_check_impact (impact : option string) : dry (check_impact impact).
Proof.
  unfold check_impact. destruct (truthy impact); [|apply dry_ret].
  destruct (match impact with Some i => _ | None => false end);
    [apply dry_ret | apply dry_raise].
Qed.

Lemma dry_update_incident (iid : string) (st msg : option text)
    (impact : option string) :
  dry (update_incident iid st msg impact).
Proof.
  unfold update_incident. apply dry_bind.
  - destruct st as [t|]; [|apply dry_ret].
    destruct (literal_in t _); [apply dry_ret | apply dry_raise].
  - intros _. apply dry_bind; [apply dry_check_impact|]. intros o.
    cbv zeta. destruct (payload_empty _); [apply dry_ret|].
    apply dry_bind_get_page. intros p Hp. rewrite Hp. apply dry_ret.
Qed.

Lemma dry_create_incident (cid : option string) (title_ : string)
    (msg : text) (impact : option string) :
  dry (create_incident cid title_ msg impact).
Proof.
  unfold create_incident. apply dry_bind; [apply dry_check_impact|].
  intros o. cbv zeta. apply dry_bind_get_page. intros p Hp. rewrite Hp.
  apply dry_ret.
Qed.

Lemma dry_evaluate_model (now : datetime) (model : ModelClass)
    (most_recent : ModelRun) :
  dry (evaluate_model now model most_recent).
Proof.
  unfold evaluate_model.
  apply dry_bind; [apply dry_lift|]. intros required_model.
  apply dry_bind_get_page. intros p _.
  destruct (bulletin most_recent) as [c|]; [|apply dry_raise].
  destruct (bulletin required_model) as [r|]; [|apply dry_raise].
  destruct (geb c r).
  - unfold resolve. apply dry_bind; [apply dry_status|]. intros current.
    apply dry_bind.
    + destruct (match current with Some s => _ | None => false end);
        [apply dry_ret|].
      apply dry_bind; [apply dry_status | intros; apply dry_ret].
    + intros _. destruct (find_open_incident _ _ _); [|apply dry_ret].
      apply dry_update_incident.
  - unfold degraded. apply dry_bind; [apply dry_lift|]. intros message.
    apply dry_bind; [apply dry_lift|]. intros escalated.
    apply dry_bind.
    + destruct escalated; [apply dry_lift | apply dry_ret].
    + intros message'. destruct (degraded_targets escalated) as [st impact].
      unfold reconcile_degraded.
      destruct (find_open_incident _ _ _) as [inc|].
      * apply dry_bind; [apply dry_status|]. intros current.
        destruct (match current with Some s => _ | None => false end);
          [apply dry_ret|].
        apply dry_bind; [apply dry_status|]. intros _.
        apply dry_update_incident.
      * apply dry_bind; [apply dry_status|]. intros _.
        apply dry_create_incident.
Qed.

Lemma dry_evaluate_all (now : datetime) (d : list (ModelClass * ModelRun)) :
  dry (evaluate_all now d).
Proof.
  induction d as [|[model most_recent] tl IH]; cbn [evaluate_all].
  - apply dry_ret.
  - apply dry_bind; [apply dry_evaluate_model | intros _; exact IH].
Qed.

(** X10.  In dry-run mode [main] sends no write to the board, whatever the
    nodes hold and whatever the state of the board. *)
Theorem main_dryrun_sends_no_write (models : list ModelClass)
    (nodes : list ApplicationNode) (now : datetime) (s : System) :
  writes (snd (main true models nodes now s)) = writes s.
Proof.
  unfold main, bind at 1, lift.
  destruct (extract_most_recent_bulletin models nodes) as [d|e];
    [|reflexivity].
  unfold bind. rewrite init_run.
  destruct (dry_evaluate_all now d
              (mk_system (view true (board s)) (board s)
                 ((requests s ++ [GET_components]) ++ [GET_unresolved]))
              eq_refl) as [_ Hw].
  rewrite Hw. unfold writes. cbn [requests].
  rewrite !filter_app. cbn. now rewrite !app_nil_r.
Qed.

(* ================================================================= *)
(** ** The local view of the board *)

Lemma load_get_in {A V} (key : A -> string) (val : A -> V) (l : list A) :
  forall d k v,
    existsb (fun a => String.eqb (key a) k) l = true ->
    str_get (fold_left (fun d a => str_set d (key a) (val a)) l d) k = Some v ->
    exists a, In a l /\ key a = k /\ val a = v.
Proof.
  induction l as [|a tl IH]; intros d k v Hex Hget; cbn in *.
  - discriminate.
  - destruct (existsb (fun a0 => String.eqb (key a0) k) tl) eqn:Htl.
    + destruct (IH _ _ _ Htl Hget) as (a' & Hin & Hk & Hv).
      exists a'. repeat split; try assumption. now right.
    + rewrite orb_false_r in Hex. apply String.eqb_eq in Hex.
      apply (load_get key val) in Hget.
      destruct Hget as [(a' & Hin & Hk & Hv) | Hd].
      * exists a'. repeat split; try assumption. now right.
      * rewrite Hex, str_get_set_same in Hd. injection Hd as <-.
        exists a. repeat split; auto.
Qed.

Lemma NoDup_map_injective {A B} (f : A -> B) (l : list A) (a b : A) :
  NoDup (map f l) -> In a l -> In b l -> f a = f b -> a = b.
Proof.
  induction l as [|x tl IH]; cbn; intros Hnd Ha Hb Hf; [destruct Ha|].
  inversion Hnd as [|? ? Hnotin Hnd']; subst.
  destruct Ha as [->|Ha], Hb as [->|Hb].
  - reflexivity.
  - exfalso. apply Hnotin. rewrite Hf. now apply in_map.
  - exfalso. apply Hnotin. rewrite <- Hf. now apply in_map.
  - now apply IH.
Qed.

(** X14.  A client that has just been built reports, for every component of a
    board whose component identifiers are distinct, the status the board
    holds for it. *)
Theorem init_reads_board_status (dryrun_ : bool) (s : System)
    (c : component) :
  NoDup (map component_id (board_components (board s))) ->
  In c (board_components (board s)) ->
  fst (bind (StatusPage_init dryrun_)
            (fun _ => status (Some (component_id c)) None) s)
  = Ok (component_status c).
Proof.
  intros Hnd Hin. unfold bind at 1. rewrite init_run.
  unfold status, bind, ret, get_page. cbn [truthy fst page].
  f_equal. unfold get_status, view. cbn [components].
  assert (Hex : existsb (fun a => String.eqb (component_id a) (component_id c))
                        (board_components (board s)) = true).
  { apply existsb_exists. exists c. split; [exact Hin|].
    apply String.eqb_refl. }
  destruct (str_get (view_components (board s)) (component_id c))
    as [c'|] eqn:Hget.
  - unfold view_components in Hget.
    apply (load_get_in component_id (fun x => x)) in Hget; [|exact Hex].
    destruct Hget as (a & Ha & Hid & <-).
    now rewrite (NoDup_map_injective component_id _ a c Hnd Ha Hin Hid).
  - exfalso. revert Hget. unfold view_components.
    apply (load_defined component_id (fun x => x)). now left.
Qed.

Lemma init_reads_board_status_witness :
  fst (bind (StatusPage_init false)
            (fun _ => status (Some "bcsflmrp5rgk") None)
            (boot (board_of "partial_outage" [])))
  = Ok (Some "partial_outage").
Proof.
  apply (@init_reads_board_status false (boot (board_of "partial_outage" []))
           (mk_component "bcsflmrp5rgk" "MEPS deterministic"
              (Some "partial_outage"))).
  - simpl. repeat constructor. simpl. intros [].
  - simpl. left. reflexivity.
Defined.

Lemma truthy_component_status (st : string) :
  In st component_statuses ->
  truthy (Some st) = true
  /\ existsb (String.eqb st) component_statuses = true.
Proof.
  intros Hin. split; [|now apply existsb_eqb_In].
  cbn in Hin. repeat (destruct Hin as [<-|Hin]; [reflexivity|]). destruct Hin.
Qed.

Lemma status_push (cid st : string) (s : System) :
  dryrun (page s) = false ->
  has_component cid (board s) = true ->
  In st component_statuses ->
  status (Some cid) (Some st) s
  = (Ok (Some st),
     mk_system
       (mk_page
          (fold_left (fun d c => str_set d (component_id c) c)
             (map (set_component cid st) (board_components (board s)))
             (components (page s)))
          (active_incidents (page s)) false)
       (mk_board (map (set_component cid st) (board_components (board s)))
                 (board_incidents (board s)) (board_next (board s)))
       ((requests s ++ [PATCH_component (Some cid) st]) ++ [GET_components])).
Proof.
  intros Hdry Hknown Hst.
  destruct (truthy_component_status Hst) as [Htruthy Hallowed].
  unfold status. rewrite Htruthy.
  unfold set_status. change (existsb (String.eqb st) _)
    with (existsb (String.eqb st) component_statuses).
  rewrite Hallowed.
  unfold bind, get_page, try_pass, call, ret, update_local_component_status,
    bind, get_page, set_page, call.
  rewrite Hdry. cbn [serve]. rewrite Hknown. cbn. rewrite Hdry.
  set (comps := map (set_component cid st) (board_components (board s))).
  assert (Hall : forall c, In c comps -> component_id c = cid ->
                           component_status c = Some st).
  { intros c Hc Hid. apply in_map_iff in Hc. destruct Hc as (c0 & <- & _).
    rewrite set_component_id in Hid. unfold set_component.
    apply String.eqb_eq in Hid. now rewrite Hid. }
  assert (Hex : existsb (fun a => String.eqb (component_id a) cid) comps
                = true).
  { unfold has_component in Hknown. rewrite existsb_exists in *.
    destruct Hknown as (c & Hc & Hid). exists (set_component cid st c).
    split; [now apply in_map | now rewrite set_component_id]. }
  destruct (str_get (fold_left (fun d c => str_set d (component_id c) c) comps
                       (components (page s))) cid) as [c'|] eqn:Hget.
  - apply (load_get_in component_id (fun x => x)) in Hget; [|exact Hex].
    destruct Hget as (a & Ha & Hid & <-).
    now rewrite (Hall a Ha Hid).
  - exfalso. revert Hget.
    apply (load_defined component_id (fun x => x)). now left.
Qed.

(** X15.  Outside dry-run mode, setting the status of a component the board
    knows sends one write and one read, returns the new status, and
    leaves every component of that identifier with the new status on
    the board. *)
Theorem status_set_then_get (cid st : string) (s : System) :
  dryrun (page s) = false ->
  has_component cid (board s) = true ->
  In st component_statuses ->
  exists s',
    status (Some cid) (Some st) s = (Ok (Some st), s')
    /\ requests s' = requests s ++ [PATCH_component (Some cid) st;
                                    GET_components]
    /\ forall c, In c (board_components (board s')) ->
                 component_id c = cid -> component_status c = Some st.
Proof.
  intros Hdry Hknown Hst. eexists. split; [now apply status_push|]. split.
  - cbn [requests]. now rewrite <- app_assoc.
  - cbn [board board_components]. intros c Hc Hid.
    apply in_map_iff in Hc. destruct Hc as (c0 & <- & _).
    rewrite set_component_id in Hid. unfold set_component.
    apply String.eqb_eq in Hid. now rewrite Hid.
Qed.

Lemma status_set_then_get_witness :
  exists s',
    status (Some "bcsflmrp5rgk") (Some "major_outage")
      (boot (board_of "operational" []))
    = (Ok (Some "major_outage"), s')
    /\ requests s'
       = requests (boot (board_of "operational" []))
         ++ [PATCH_component (Some "bcsflmrp5rgk") "major_outage";
             GET_components]
    /\ forall c, In c (board_components (board s')) ->
                 component_id c = "bcsflmrp5rgk" ->
                 component_status c = Some "major_outage".
Proof.
  apply status_set_then_get.
  - reflexivity.
  - reflexivity.
  - simpl. auto.
Defined.

Lemma add_code_spec (acc : list string) (code : string) :
  NoDup acc ->
  NoDup (add_code acc code)
  /\ forall x, In x (add_code acc code) <-> In x acc \/ x = code.
Proof.
  intros Hnd. unfold add_code.
  destruct (existsb (String.eqb code) acc) eqn:Hex.
  - apply existsb_eqb_In in Hex. split; [exact Hnd|].
    intros x. split; [now left | intros [H| ->]; assumption].
  - assert (Hnot : ~ In code acc).
    { intros Hin. apply existsb_eqb_In in Hin. congruence. }
    split.
    + apply NoDup_app; [exact Hnd | repeat constructor; intros [] |].
      intros x Hx [<-|[]]. contradiction.
    + intros x. rewrite in_app_iff. cbn. intuition.
Qed.

Lemma add_codes_spec (update : list string) :
  forall acc, NoDup acc ->
    NoDup (fold_left add_code update acc)
    /\ forall x, In x (fold_left add_code update acc)
                 <-> In x acc \/ In x update.
Proof.
  induction update as [|c tl IH]; intros acc Hnd; cbn [fold_left].
  - split; [exact Hnd|]. intros x. cbn. tauto.
  - destruct (@add_code_spec acc c Hnd) as [Hnd' Hin'].
    destruct (IH _ Hnd') as [Hnd'' Hin'']. split; [exact Hnd''|].
    intros x. rewrite Hin'', Hin'. cbn. intuition.
Qed.

Lemma all_codes_spec (updates : list (list string)) :
  forall acc, NoDup acc ->
    NoDup (fold_left (fun acc update => fold_left add_code update acc)
                     updates acc)
    /\ forall x,
        In x (fold_left (fun acc update => fold_left add_code update acc)
                        updates acc)
        <-> In x acc \/ exists u, In u updates /\ In x u.
Proof.
  induction updates as [|u tl IH]; intros acc Hnd; cbn [fold_left].
  - split; [exact Hnd|]. intros x. split; [now left|].
    intros [H | (u & [] & _)]. exact H.
  - destruct (add_codes_spec u Hnd) as [Hnd' Hin'].
    destruct (IH _ Hnd') as [Hnd'' Hin'']. split; [exact Hnd''|].
    intros x. rewrite Hin'', Hin'. split.
    + intros [[H|H] | (u' & Hu' & Hx)].
      * now left.
      * right. exists u. split; [now left | exact H].
      * right. exists u'. split; [now right | exact Hx].
    + intros [H | (u' & [<-|Hu'] & Hx)].
      * left. now left.
      * left. now right.
      * right. now exists u'.
Qed.

(** X16.  The incident object the client builds lists each affected component
    once, and lists exactly the components that some update of the
    incident names. *)
Theorem incident_of_components (i : incident_json) :
  id (incident_of i) = inc_id i
  /\ title (incident_of i) = inc_name i
  /\ NoDup (affected_components (incident_of i))
  /\ forall code,
      In code (affected_components (incident_of i))
      <-> exists update, In update (incident_updates i) /\ In code update.
Proof.
  split; [reflexivity|]. split; [reflexivity|].
  unfold incident_of. cbn [affected_components].
  destruct (all_codes_spec (incident_updates i) (NoDup_nil string))
    as [Hnd Hin].
  split; [exact Hnd|]. intros code. rewrite Hin. cbn. tauto.
Qed.

(** X17.  Lines 116 and 117 of [main]: with an open incident and a board that
    already records the target status, nothing is sent at all and the
    state is left as it was. *)
Theorem reconcile_degraded_unchanged (model : ModelClass) (title_ : string)
    (component_status impact : string) (message : text) (inc : Incident)
    (s : System) :
  get_status (page s) (STATUSPAGE_ID model) = Some component_status ->
  reconcile_degraded model title_ component_status impact message (Some inc) s
  = (Ok tt, s).
Proof.
  intros Hcur. unfold reconcile_degraded, status, bind, ret, get_page.
  cbn [truthy]. rewrite Hcur, String.eqb_refl. reflexivity.
Qed.

Lemma reconcile_degraded_unchanged_witness :
  reconcile_degraded MEPSdet (canonical_title MEPSdet) "degraded_performance"
    "minor" (Formatted SignificantDelay "MEPS deterministic" "")
    (Some (mk_incident "inc1" (canonical_title MEPSdet) ["bcsflmrp5rgk"]))
    (snd (StatusPage_init false
            (boot (board_of "degraded_performance"
                     [an_incident "inc1" MEPSdet "bcsflmrp5rgk"]))))
  = (Ok tt,
     snd (StatusPage_init false
            (boot (board_of "degraded_performance"
                     [an_incident "inc1" MEPSdet "bcsflmrp5rgk"])))).
Proof.
  apply reconcile_degraded_unchanged. reflexivity.
Defined.

Lemma str_get_values {V} (d : list (string * V)) (k : string) (v : V) :
  str_get d k = Some v -> In v (map snd d).
Proof.
  induction d as [|[k' v'] tl IH]; cbn; [discriminate|].
  destruct (String.eqb k' k).
  - intros [= <-]. now left.
  - intros H. right. now apply IH.
Qed.

Lemma find_exists {A} (f : A -> bool) (l : list A) (x : A) :
  In x l -> f x = true -> exists y, find f l = Some y /\ f y = true.
Proof.
  intros Hin Hf. destruct (find f l) as [y|] eqn:Hfind.
  - exists y. split; [reflexivity|]. now apply find_some in Hfind.
  - pose proof (find_none _ _ Hfind _ Hin). congruence.
Qed.

Lemma truthy_impact (impact : string) :
  In impact impacts ->
  truthy (Some impact) = true
  /\ existsb (String.eqb impact) ["none"; "minor"; "major"] = true.
Proof.
  intros Hin. split; [|now apply existsb_eqb_In].
  cbn in Hin. repeat (destruct Hin as [<-|Hin]; [reflexivity|]). destruct Hin.
Qed.

(** X18.  Lines 120 to 122 of [main]: without an open incident, outside dry-run
    mode and for a component the board knows, the status is pushed and an
    incident is created with the title, the message and the impact given;
    the client then finds an open incident with that title for the
    component. *)
Theorem reconcile_degraded_creates (model : ModelClass) (cid : string)
    (title_ : string) (component_status impact : string) (message : text)
    (s : System) :
  dryrun (page s) = false ->
  STATUSPAGE_ID model = Some cid ->
  has_component cid (board s) = true ->
  In component_status component_statuses ->
  In impact impacts ->
  exists s',
    reconcile_degraded model title_ component_status impact message None s
    = (Ok tt, s')
    /\ requests s'
       = requests s
         ++ [PATCH_component (Some cid) component_status;
             GET_components;
             POST_incident (mk_create title_ "investigating" message
                              [Some cid] (Some impact));
             GET_unresolved]
    /\ exists inc, find_open_incident (page s') model title_ = Some inc
                   /\ title inc = title_.
Proof.
  intros Hdry Hcid Hknown Hst Himpact.
  destruct (truthy_impact Himpact) as [Htruthy Hallowed].
  unfold reconcile_degraded. rewrite Hcid. unfold bind at 1.
  rewrite (status_push cid s Hdry Hknown Hst).
  unfold create_incident, check_impact. rewrite Htruthy, Hallowed.
  unfold bind, ret, get_page, call, update_local_incident_status, bind,
    get_page, set_page, call.
  cbn. eexists. split; [reflexivity|]. split.
  - cbn [requests]. now rewrite <- !app_assoc.
  - cbn [page]. unfold find_open_incident, get_incidents_for_component.
    rewrite Hcid. cbn [active_incidents].
    rewrite filter_app, fold_left_app. cbn.
    set (d := fold_left _ (filter unresolved (board_incidents (board s))) []).
    set (new := {| id := fresh_id (board_next (board s));
                   title := title_;
                   affected_components := add_code [] cid |}).
    assert (Hin : In new (map snd (str_set d (id new) new))).
    { apply (str_get_values _ (id new)). apply str_get_set_same. }
    destruct (find_exists
                (fun incident => String.eqb (title incident) title_)
                (filter (fun incident =>
                           existsb (String.eqb cid)
                                   (affected_components incident))
                        (map snd (str_set d (id new) new))) new)
      as (y & Hy & Hty).
    + apply filter_In. split; [exact Hin|]. cbn. now rewrite String.eqb_refl.
    + cbn. apply String.eqb_refl.
    + exists y. split; [exact Hy | now apply String.eqb_eq].
Qed.

Lemma reconcile_degraded_creates_witness :
  exists s',
    reconcile_degraded MEPSdet (canonical_title MEPSdet)
      "degraded_performance" "minor"
      (Formatted SignificantDelay "MEPS deterministic" "") None
      (boot (board_of "operational" []))
    = (Ok tt, s')
    /\ requests s'
       = requests (boot (board_of "operational" []))
         ++ [PATCH_component (Some "bcsflmrp5rgk") "degraded_performance";
             GET_components;
             POST_incident
               (mk_create (canonical_title MEPSdet) "investigating"
                  (Formatted SignificantDelay "MEPS deterministic" "")
                  [Some "bcsflmrp5rgk"] (Some "minor"));
             GET_unresolved]
    /\ exists inc,
        find_open_incident (page s') MEPSdet (canonical_title MEPSdet)
        = Some inc
        /\ title inc = canonical_title MEPSdet.
Proof.
  apply reconcile_degraded_creates.
  - reflexivity.
  - reflexivity.
  - reflexivity.
  - simpl. auto.
  - simpl. auto.
Defined.

Lemma fetch_unreachable_node_witness :
  fetch no_web no_parse (ApplicationNode_init [MEPSdet; MEPSens] "a") []
  = (Raise HTTPError,
     (node_result (ApplicationNode_init [MEPSdet; MEPSens] "a"),
      [URL MEPSdet]))
  /\ forall k,
      observation
        (mk_node "a"
           (fst (snd (fetch no_web no_parse
                        (ApplicationNode_init [MEPSdet; MEPSens] "a") []))))
        k = None.
Proof.
  apply fetch_unreachable_node. reflexivity.
Defined.
